(** * Autocomplete prompt construction (core/autocomplete/constructPrompt.ts)

    A shallow embedding of the prompt assembler and of its multiline
    heuristic, followed by the properties established about them.

    Conventions of the embedding.
    - A JavaScript string is the sequence of its UTF-16 code units; a code
      unit is a number of type [N].  String literals are written with [str].
    - A JavaScript [number] that the code turns into a string index is a
      binary64 float, multiplied and subtracted as the language does and
      converted by [toIntegerOrInfinity]; the token budgets, which are only
      compared, are idealised as rationals of type [Q].
    - [undefined] and [null] are the [None] of an option type.
    - Awaited collaborators are functions; the ones whose code lives in
      other modules are the fields of the record [Collaborators]. *)

From Stdlib Require Import Strings.String Strings.Ascii.
From Stdlib Require Import List NArith ZArith QArith Qround Qminmax Bool Lia.
From Stdlib Require Import Floats.PrimFloat Floats.SpecFloat Floats.FloatOps.
Import ListNotations.

Set Implicit Arguments.
Local Open Scope nat_scope.

(** ** JavaScript strings and arrays *)

Abbreviation jsstring := (list N) (only parsing).

Fixpoint str (s : string) : jsstring :=
  match s with
  | EmptyString => []
  | String a rest => N_of_ascii a :: str rest
  end.

Definition LF : N := 10%N.
Definition nl : jsstring := [LF].
Definition DOT : N := 46%N.
Definition LBRACE : N := 123%N.
Definition RBRACE : N := 125%N.

Fixpoint streq (a b : jsstring) : bool :=
  match a, b with
  | [], [] => true
  | x :: a', y :: b' => N.eqb x y && streq a' b'
  | _, _ => false
  end.

(** The results of ToIntegerOrInfinity. *)
Inductive IntegerOrInfinity : Type :=
| Finite (z : Z)
| PlusInfinity
| MinusInfinity.

(** ToIntegerOrInfinity on a binary64 number: NaN and both zeros give 0,
    the infinities stay, a finite number [m * 2^e] is truncated towards
    zero. *)
Definition toIntegerOrInfinity (x : float) : IntegerOrInfinity :=
  match Prim2SF x with
  | S754_nan => Finite 0
  | S754_zero _ => Finite 0
  | S754_infinity false => PlusInfinity
  | S754_infinity true => MinusInfinity
  | S754_finite negative m e =>
      let magnitude := Z.shiftl (Z.pos m) e in
      Finite (if negative then (- magnitude)%Z else magnitude)
  end.

(** The index clamping shared by [String.prototype.slice] and
    [Array.prototype.slice]: a negative index counts from the end. *)
Definition clampIndex (len rel : Z) : Z :=
  if (rel <? 0)%Z then Z.max (len + rel) 0 else Z.min rel len.

(** [s.slice(start)] when [end_] is [None], [s.slice(start, e)] otherwise;
    the same algorithm serves strings and arrays. *)
Definition slice (A : Type) (s : list A) (start : Z) (end_ : option Z) : list A :=
  let len := Z.of_nat (length s) in
  let from := clampIndex len start in
  let to := match end_ with
            | None => len
            | Some e => clampIndex len e
            end in
  firstn (Z.to_nat (to - from)) (skipn (Z.to_nat from) s).

(** [s.slice(x)] for a number [x]: minus infinity starts at 0, plus
    infinity at the length. *)
Definition sliceFromNumber (A : Type) (s : list A) (x : float) : list A :=
  match toIntegerOrInfinity x with
  | Finite start => slice s start None
  | MinusInfinity => s
  | PlusInfinity => []
  end.

(** Position of the first occurrence of a code unit. *)
Fixpoint findIndex (c : N) (s : jsstring) : option nat :=
  match s with
  | [] => None
  | x :: rest =>
      if N.eqb x c then Some O
      else match findIndex c rest with
           | Some i => Some (S i)
           | None => None
           end
  end.

(** [s.indexOf(c)] for a one-character search string [c]. *)
Definition indexOf (c : N) (s : jsstring) : Z :=
  match findIndex c s with
  | Some i => Z.of_nat i
  | None => (-1)%Z
  end.

(** [s.lastIndexOf(c)] for a one-character search string [c]. *)
Definition lastIndexOf (c : N) (s : jsstring) : Z :=
  match findIndex c (rev s) with
  | Some i => (Z.of_nat (length s) - 1 - Z.of_nat i)%Z
  | None => (-1)%Z
  end.

(** [s.split(sep)] for a one-character separator: never the empty array. *)
Fixpoint split (sep : N) (s : jsstring) : list jsstring :=
  match s with
  | [] => [[]]
  | c :: rest =>
      if N.eqb c sep then [] :: split sep rest
      else match split sep rest with
           | [] => [[c]]
           | l :: ls => (c :: l) :: ls
           end
  end.

(** [parts.join(sep)]. *)
Fixpoint join (sep : jsstring) (parts : list jsstring) : jsstring :=
  match parts with
  | [] => []
  | [p] => p
  | p :: rest => p ++ sep ++ join sep rest
  end.

(** WhiteSpace and LineTerminator code units, the ones [trim] removes. *)
Definition isWhiteSpace (c : N) : bool :=
  existsb (N.eqb c)
    [9; 10; 11; 12; 13; 32; 160; 5760; 8192; 8193; 8194; 8195; 8196; 8197;
     8198; 8199; 8200; 8201; 8202; 8232; 8233; 8239; 8287; 12288; 65279]%N.

Fixpoint trimStart (s : jsstring) : jsstring :=
  match s with
  | [] => []
  | c :: rest => if isWhiteSpace c then trimStart rest else s
  end.

Definition trimEnd (s : jsstring) : jsstring := rev (trimStart (rev s)).

Definition trim (s : jsstring) : jsstring := trimEnd (trimStart s).

(** [arr.reverse()] reverses the array in place and returns that same
    array: the first component is the content of the array afterwards, the
    second the content seen through the returned reference. *)
Definition Array_reverse (A : Type) (arr : list A) : list A * list A :=
  (rev arr, rev arr).

(** ** Data model *)

Record AutocompleteLanguageInfo := { comment : jsstring }.

Record FileWithContents := { filepath : jsstring; contents : jsstring }.

Record Position := { line : Z; character : Z }.

Record Range := { range_start : Position; range_end : Position }.

Record RangeInFileWithContents := {
  range_filepath : jsstring;
  range : Range;
  range_contents : jsstring
}.

Record Point := { row : Z; column : Z }.

(** The part of a tree-sitter node the assembler reads. *)
Record SyntaxNode := {
  type : jsstring;
  startPosition : Point;
  text : jsstring
}.

Record TabAutocompleteOptions := {
  slidingWindowSize : float;
  slidingWindowPrefixPercentage : float;
  maxPromptTokens : Q;
  prefixPercentage : Q;
  maxSuffixPercentage : Q
}.

Record AssembledPrompt := {
  prefix : jsstring;
  suffix : jsstring;
  useFim : bool;
  completeMultiline : bool
}.

(** A promise that has settled with a value. *)
Inductive Promise (A : Type) : Type := Resolved (a : A).

(** Truthiness of a promise under [!!]: a promise is an object. *)
Definition truthy (A : Type) (p : Promise A) : bool := true.

Definition Promise_all (A : Type) (ps : list (Promise A)) : list A :=
  map (fun p => match p with Resolved a => a end) ps.

(** The services imported from other modules.  [countTokens] is the token
    counter at the fixed model name; [getAst] answers [None] when it yields
    no tree or throws, [getTreePathAtCursor] when it throws; an entry of a
    snippet array is [None] when it is [null]. *)
Record Collaborators := {
  Tree : Type;
  getBasename : jsstring -> jsstring;
  countTokens : jsstring -> N;
  pruneLinesFromTop : jsstring -> Q -> jsstring;
  pruneLinesFromBottom : jsstring -> Q -> jsstring;
  getAst : jsstring -> jsstring -> option Tree;
  getTreePathAtCursor : Tree -> nat -> option (list SyntaxNode);
  getScopeAroundRange :
    RangeInFileWithContents -> option RangeInFileWithContents;
  rankSnippets :
    list (option FileWithContents) -> jsstring ->
    list (option FileWithContents);
  slidingWindowMatcher :
    list FileWithContents -> jsstring -> nat -> float -> list FileWithContents
}.

(** ** Language profile resolver *)

(** What a read of [LANGUAGES[key]] can yield besides [undefined]: a
    profile of the table, or a member that every object literal inherits
    from [Object.prototype]. *)
Inductive LookupResult : Type :=
| LanguageInfo (language : AutocompleteLanguageInfo)
| ObjectPrototypeMember (name : jsstring).

(** The names of the members of [Object.prototype]; each is a function or
    an object, hence truthy. *)
Definition objectPrototypeMembers : list jsstring :=
  [str "constructor"; str "__defineGetter__"; str "__defineSetter__";
   str "hasOwnProperty"; str "__lookupGetter__"; str "__lookupSetter__";
   str "isPrototypeOf"; str "propertyIsEnumerable"; str "toString";
   str "valueOf"; str "__proto__"; str "toLocaleString"].

(** [LANGUAGES[key]] on the object literal whose own properties are
    [LANGUAGES]: the own property when there is one, else the inherited
    member of that name, else [undefined]. *)
Definition propertyRead
    (LANGUAGES : jsstring -> option AutocompleteLanguageInfo)
    (key : jsstring) : option LookupResult :=
  match LANGUAGES key with
  | Some language => Some (LanguageInfo language)
  | None =>
      if existsb (streq key) objectPrototypeMembers
      then Some (ObjectPrototypeMember key)
      else None
  end.

(** [LANGUAGES] and [Typescript] are declared in ./languages; they are taken
    as parameters, [LANGUAGES] as the own properties of the table.  What a
    read yields is an object, hence truthy, and [||] falls back to
    [Typescript] on [undefined] only. *)
Definition languageForFilepath
    (LANGUAGES : jsstring -> option AutocompleteLanguageInfo)
    (Typescript : AutocompleteLanguageInfo)
    (filepath : jsstring) : LookupResult :=
  let key :=
    match nth_error (slice (split DOT filepath) (-1) None) 0 with
    | Some ext => ext
    | None => str "undefined"
    end in
  match propertyRead LANGUAGES key with
  | Some value => value
  | None => LanguageInfo Typescript
  end.

(** ** Snippet formatter *)

Definition formatExternalSnippet (E : Collaborators)
    (filepath snippet : jsstring) (language : AutocompleteLanguageInfo)
    : jsstring :=
  let comment := comment language in
  let lines :=
    [comment ++ str " Path: " ++ getBasename E filepath]
    ++ map (fun line => comment ++ str " " ++ line) (split LF snippet)
    ++ [comment] in
  join nl lines.

(** ** Multiline heuristic *)

Definition BLOCK_TYPES : list jsstring := [str "body"; str "statement_block"].

(** [BLOCK_TYPES.includes(t)]. *)
Definition includes (types : list jsstring) (t : jsstring) : bool :=
  existsb (streq t) types.

(** The condition of the [if] inside the loop. *)
Definition qualifies (node : SyntaxNode) (cursorLine : Z) : bool :=
  includes BLOCK_TYPES (type node)
  && (Z.abs (row (startPosition node) - cursorLine) <=? 1)%Z.

(** Line 55: [text.slice(text.indexOf("{") + 1)]. *)
Definition stripToOpeningBrace (t : jsstring) : jsstring :=
  slice t (indexOf LBRACE t + 1) None.

(** Line 56: [text.slice(0, text.lastIndexOf("}"))]. *)
Definition stripFromClosingBrace (t : jsstring) : jsstring :=
  slice t 0 (Some (lastIndexOf RBRACE t)).

(** Lines 54-57: the text the last line of the [if] body splits. *)
Definition innerText (t : jsstring) : jsstring :=
  trim (stripFromClosingBrace (stripToOpeningBrace t)).

Definition spansOneLine (t : jsstring) : bool :=
  Nat.eqb (length (split LF t)) 1.

(** The [for] loop entered with [i = n - 1]; [treePath[i]] is always in
    range, the [None] branch is never taken. *)
Fixpoint scanFrom (treePath : list SyntaxNode) (cursorLine : Z) (n : nat)
    : bool :=
  match n with
  | O => false
  | S i =>
      match nth_error treePath i with
      | Some node =>
          if qualifies node cursorLine
          then spansOneLine (innerText (text node))
          else scanFrom treePath cursorLine i
      | None => scanFrom treePath cursorLine i
      end
  end.

Definition shouldCompleteMultiline (treePath : list SyntaxNode)
    (cursorLine : Z) : bool :=
  if Nat.eqb (length treePath) 1 then true
  else scanFrom treePath cursorLine (length treePath).

(** ** Line pruners *)

Definition tokens (n : N) : Q := inject_Z (Z.of_N n).

(** Modelled from the spec: the line pruners of ../llm/countTokens are not
    among the sources.  A pruner removes whole lines from the stated end
    until the token count of what is left is at most [maxTokens]; here
    from the top, the lines being given first to last. *)
Fixpoint dropLinesFromTop (count : jsstring -> N) (maxTokens : Q)
    (lines : list jsstring) : list jsstring :=
  if Qle_bool (tokens (count (join nl lines))) maxTokens then lines
  else match lines with
       | [] => []
       | _ :: rest => dropLinesFromTop count maxTokens rest
       end.

(** Modelled from the spec: the same from the bottom, the lines being given
    last to first. *)
Fixpoint dropLinesFromBottom (count : jsstring -> N) (maxTokens : Q)
    (rlines : list jsstring) : list jsstring :=
  if Qle_bool (tokens (count (join nl (rev rlines)))) maxTokens then rlines
  else match rlines with
       | [] => []
       | _ :: rest => dropLinesFromBottom count maxTokens rest
       end.

(** Modelled from the spec: [pruneLinesFromTop] of ../llm/countTokens. *)
Definition specPruneLinesFromTop (count : jsstring -> N)
    (prompt : jsstring) (maxTokens : Q) : jsstring :=
  join nl (dropLinesFromTop count maxTokens (split LF prompt)).

(** Modelled from the spec: [pruneLinesFromBottom] of ../llm/countTokens. *)
Definition specPruneLinesFromBottom (count : jsstring -> N)
    (prompt : jsstring) (maxTokens : Q) : jsstring :=
  join nl (rev (dropLinesFromBottom count maxTokens (rev (split LF prompt)))).

(** The collaborators whose pruners are the ones the spec describes. *)
Definition usesSpecPruners (E : Collaborators) : Prop :=
  pruneLinesFromTop E = specPruneLinesFromTop (countTokens E)
  /\ pruneLinesFromBottom E = specPruneLinesFromBottom (countTokens E).

(** ** Context assembler *)

Inductive Outcome : Type :=
| Returned (result : AssembledPrompt)
| ThrownTypeError.

(** Lines 88-94. *)
Definition windowAroundCursor (options : TabAutocompleteOptions)
    (fullPrefix fullSuffix : jsstring) : jsstring :=
  sliceFromNumber fullPrefix
    (- slidingWindowSize options * slidingWindowPrefixPercentage options)%float
  ++ sliceFromNumber fullSuffix
       (slidingWindowSize options
        * (1 - slidingWindowPrefixPercentage options))%float.

(** Lines 104-116: [map] builds one promise per range, [filter] runs on
    those promises, [Promise.all] then yields what they resolved with. *)
Definition recentlyEdited (E : Collaborators)
    (recentlyEditedRanges : list RangeInFileWithContents)
    : list (option FileWithContents) :=
  Promise_all
    (filter (fun s => truthy s)
       (map (fun r =>
               Resolved
                 match getScopeAroundRange E r with
                 | None => None
                 | Some _ =>
                     Some {| filepath := range_filepath r;
                             contents := range_contents r |}
                 end)
          recentlyEditedRanges)).

(** Lines 119-129: the [try] block; [None] is [treePath] left undefined. *)
Definition parseTreePath (E : Collaborators)
    (filepath fullPrefix fullSuffix : jsstring) : option (list SyntaxNode) :=
  match getAst E filepath (fullPrefix ++ fullSuffix) with
  | None => None
  | Some ast => getTreePathAtCursor E ast (length fullPrefix)
  end.

(** Lines 135-140: the first node of the iterated array whose type is
    call_expression. *)
Definition findCallExpression (nodes : list SyntaxNode) : option SyntaxNode :=
  find (fun node => streq (type node) (str "call_expression")) nodes.

(** Lines 86-155: the candidate snippets handed to the ranker and the
    multiline decision. *)
Definition gatherSnippets (E : Collaborators)
    (filepath fullPrefix fullSuffix : jsstring)
    (getDefinition : jsstring -> Z -> Z -> option FileWithContents)
    (options : TabAutocompleteOptions)
    (recentlyEditedRanges : list RangeInFileWithContents)
    (recentlyEditedDocuments : list FileWithContents)
    : list (option FileWithContents) * bool :=
  let snippets : list (option FileWithContents) := [] in
  let window := windowAroundCursor options fullPrefix fullSuffix in
  let slidingWindowMatches :=
    slidingWindowMatcher E recentlyEditedDocuments window 3
      (slidingWindowSize options) in
  let snippets := snippets ++ map Some slidingWindowMatches in
  let snippets := snippets ++ recentlyEdited E recentlyEditedRanges in
  match parseTreePath E filepath fullPrefix fullSuffix with
  | None => (snippets, false)
  | Some treePath =>
      let '(treePath, iterated) := Array_reverse treePath in
      let snippets :=
        match findCallExpression iterated with
        | None => snippets
        | Some callExpression =>
            match getDefinition filepath
                    (row (startPosition callExpression))
                    (column (startPosition callExpression)) with
            | None => snippets
            | Some definition => snippets ++ [Some definition]
            end
        end in
      let cursorLine := (Z.of_nat (length (split LF fullPrefix)) - 1)%Z in
      (snippets, shouldCompleteMultiline treePath cursorLine)
  end.

(** Lines 164-166, the function mapped over the ranked snippets. *)
Definition formatSnippet (E : Collaborators)
    (language : AutocompleteLanguageInfo) (snippet : FileWithContents)
    : jsstring :=
  formatExternalSnippet E (filepath snippet) (contents snippet) language.

(** Lines 163-166, the [map]: reading [snippet.filepath] of [null] throws. *)
Fixpoint formatAll (E : Collaborators) (language : AutocompleteLanguageInfo)
    (snippets : list (option FileWithContents)) : option (list jsstring) :=
  match snippets with
  | [] => Some []
  | None :: _ => None
  | Some snippet :: rest =>
      match formatAll E language rest with
      | None => None
      | Some blocks => Some (formatSnippet E language snippet :: blocks)
      end
  end.

Definition maxPrefixTokens (E : Collaborators)
    (options : TabAutocompleteOptions) (formattedSnippets : jsstring) : Q :=
  (maxPromptTokens options * prefixPercentage options
   - tokens (countTokens E formattedSnippets))%Q.

Definition maxSuffixTokens (E : Collaborators)
    (options : TabAutocompleteOptions) (prefix : jsstring) : Q :=
  Qmin (maxPromptTokens options - tokens (countTokens E prefix))
       (maxSuffixPercentage options * maxPromptTokens options).

(** Lines 172-174. *)
Definition prependSnippets (formattedSnippets prefix : jsstring) : jsstring :=
  if Nat.ltb 0 (length formattedSnippets)
  then formattedSnippets ++ nl ++ prefix
  else prefix.

(** Lines 168-174. *)
Definition buildPrefix (E : Collaborators) (options : TabAutocompleteOptions)
    (fullPrefix formattedSnippets : jsstring) : jsstring :=
  prependSnippets formattedSnippets
    (pruneLinesFromTop E fullPrefix
       (maxPrefixTokens E options formattedSnippets)).

(** Lines 157-182. *)
Definition assemble (E : Collaborators) (language : AutocompleteLanguageInfo)
    (options : TabAutocompleteOptions) (fullPrefix fullSuffix : jsstring)
    (window : jsstring) (snippets : list (option FileWithContents))
    (completeMultiline : bool) : Outcome :=
  let snippets := rankSnippets E snippets window in
  match formatAll E language snippets with
  | None => ThrownTypeError
  | Some blocks =>
      let formattedSnippets := join nl blocks in
      let prefix := buildPrefix E options fullPrefix formattedSnippets in
      let suffix :=
        pruneLinesFromBottom E fullSuffix (maxSuffixTokens E options prefix) in
      Returned {| prefix := prefix; suffix := suffix; useFim := true;
                  completeMultiline := completeMultiline |}
  end.

Definition constructAutocompletePrompt (E : Collaborators)
    (filepath fullPrefix fullSuffix clipboardText : jsstring)
    (language : AutocompleteLanguageInfo)
    (getDefinition : jsstring -> Z -> Z -> option FileWithContents)
    (options : TabAutocompleteOptions)
    (recentlyEditedRanges : list RangeInFileWithContents)
    (recentlyEditedDocuments : list FileWithContents) : Outcome :=
  let '(snippets, completeMultiline) :=
    gatherSnippets E filepath fullPrefix fullSuffix getDefinition options
      recentlyEditedRanges recentlyEditedDocuments in
  assemble E language options fullPrefix fullSuffix
    (windowAroundCursor options fullPrefix fullSuffix)
    snippets completeMultiline.

(** ** Sample inputs *)

Definition lengthCounter (s : jsstring) : N := N.of_nat (length s).

(** Collaborators for closed examples: tokens are code units, the pruners
    are the ones of the spec, the ranker keeps the order it is given, the
    matcher finds nothing, the parser answers [path] and the scope lookup
    is [scope]. *)
Definition sampleCollaborators (path : option (list SyntaxNode))
    (scope : RangeInFileWithContents -> option RangeInFileWithContents)
    : Collaborators :=
  {| Tree := unit;
     getBasename := fun p => last (split 47%N p) [];
     countTokens := lengthCounter;
     pruneLinesFromTop := specPruneLinesFromTop lengthCounter;
     pruneLinesFromBottom := specPruneLinesFromBottom lengthCounter;
     getAst := fun _ _ => Some tt;
     getTreePathAtCursor := fun _ _ => path;
     getScopeAroundRange := scope;
     rankSnippets := fun snippets _ => snippets;
     slidingWindowMatcher := fun _ _ _ _ => [] |}.

Definition noDefinition (_ : jsstring) (_ _ : Z) : option FileWithContents :=
  None.

Definition sampleOptions (budget : Q) : TabAutocompleteOptions :=
  {| slidingWindowSize := 4;
     slidingWindowPrefixPercentage := 0.5;
     maxPromptTokens := budget;
     prefixPercentage := 1 # 2;
     maxSuffixPercentage := 1 |}.

Definition TypescriptProfile : AutocompleteLanguageInfo :=
  {| comment := str "//" |}.

Definition PythonProfile : AutocompleteLanguageInfo :=
  {| comment := str "#" |}.

(** A table with the entries [ts] and [py]. *)
Definition sampleLanguages (ext : jsstring) : option AutocompleteLanguageInfo :=
  if streq ext (str "ts") then Some TypescriptProfile
  else if streq ext (str "py") then Some PythonProfile
  else None.

(** The same options at another total budget. *)
Definition withMaxPromptTokens (options : TabAutocompleteOptions) (budget : Q)
    : TabAutocompleteOptions :=
  {| slidingWindowSize := slidingWindowSize options;
     slidingWindowPrefixPercentage := slidingWindowPrefixPercentage options;
     maxPromptTokens := budget;
     prefixPercentage := prefixPercentage options;
     maxSuffixPercentage := maxSuffixPercentage options |}.

(** The window as the specification words it: the last [n * p] characters
    of the prefix and the first [n * (1 - p)] characters of the suffix. *)
Definition specWindowAroundCursor (options : TabAutocompleteOptions)
    (fullPrefix fullSuffix : jsstring) : jsstring :=
  let count (x : float) (all : nat) : nat :=
    match toIntegerOrInfinity x with
    | Finite n => Z.to_nat n
    | PlusInfinity => all
    | MinusInfinity => 0
    end in
  let before :=
    count (slidingWindowSize options
           * slidingWindowPrefixPercentage options)%float
          (length fullPrefix) in
  let after :=
    count (slidingWindowSize options
           * (1 - slidingWindowPrefixPercentage options))%float
          (length fullSuffix) in
  skipn (length fullPrefix - before) fullPrefix ++ firstn after fullSuffix.

(** The qualifying block ancestor closest to the cursor in a path ordered
    root to leaf. *)
Definition innermostBlock (treePath : list SyntaxNode) (cursorLine : Z)
    : option SyntaxNode :=
  find (fun node => qualifies node cursorLine) (rev treePath).

(** The source text [function f() {], [  if (x) {], [  }], [}] with the
    cursor at the end of its second line, and the path of the nodes that
    enclose the cursor, root first, down to the brace token before it. *)
Definition nestedPrefix : jsstring :=
  str "function f() {" ++ nl ++ str "  if (x) {".

Definition nestedSuffix : jsstring := nl ++ str "  }" ++ nl ++ str "}".

Definition innerBlockNode : SyntaxNode :=
  {| type := str "statement_block";
     startPosition := {| row := 1; column := 9 |};
     text := str "{" ++ nl ++ str "  }" |}.

Definition outerBlockNode : SyntaxNode :=
  {| type := str "statement_block";
     startPosition := {| row := 0; column := 13 |};
     text := str "{" ++ nl ++ str "  if (x) {" ++ nl ++ str "  }" ++ nl
             ++ str "}" |}.

Definition nestedPath : list SyntaxNode :=
  [ {| type := str "program";
       startPosition := {| row := 0; column := 0 |};
       text := nestedPrefix ++ nestedSuffix |};
    {| type := str "function_declaration";
       startPosition := {| row := 0; column := 0 |};
       text := nestedPrefix ++ nestedSuffix |};
    outerBlockNode;
    {| type := str "if_statement";
       startPosition := {| row := 1; column := 2 |};
       text := str "if (x) {" ++ nl ++ str "  }" |};
    innerBlockNode;
    {| type := str "{";
       startPosition := {| row := 1; column := 9 |};
       text := str "{" |} ].

Definition sampleRange : RangeInFileWithContents :=
  {| range_filepath := str "a.ts";
     range := {| range_start := {| line := 0; character := 0 |};
                 range_end := {| line := 0; character := 1 |} |};
     range_contents := str "x" |}.

Definition otherRange : RangeInFileWithContents :=
  {| range_filepath := str "b.ts";
     range := {| range_start := {| line := 2; character := 0 |};
                 range_end := {| line := 2; character := 4 |} |};
     range_contents := str "y" |}.

(** A scope lookup that succeeds on a.ts only. *)
Definition scopeInA (r : RangeInFileWithContents)
    : option RangeInFileWithContents :=
  if streq (range_filepath r) (str "a.ts") then Some r else None.

Definition noScope (_ : RangeInFileWithContents)
    : option RangeInFileWithContents := None.

(** A request with one recently edited range whose scope is found. *)
Definition sampleRun (budget : Q) : Outcome :=
  constructAutocompletePrompt (sampleCollaborators None scopeInA)
    (str "c.ts") (str "let a = 1" ++ nl ++ str "let b = 2")
    (nl ++ str "let c") [] TypescriptProfile noDefinition
    (sampleOptions budget) [sampleRange] [].

Definition sampleResult : AssembledPrompt :=
  {| prefix := str "// Path: a.ts" ++ nl ++ str "// x" ++ nl ++ str "//" ++ nl
               ++ str "let a = 1" ++ nl ++ str "let b = 2";
     suffix := nl ++ str "let c";
     useFim := true;
     completeMultiline := false |}.

(** A one-line prefix of three tokens and a one-line suffix of four, no
    snippet, at a given total budget. *)
Definition tightRun (budget : Q) : Outcome :=
  constructAutocompletePrompt (sampleCollaborators None noScope)
    (str "a.ts") (str "abc") (str "wxyz") [] TypescriptProfile noDefinition
    (withMaxPromptTokens (sampleOptions 0) budget) [] [].

Definition tightResultAt5 : AssembledPrompt :=
  {| prefix := []; suffix := str "wxyz"; useFim := true;
     completeMultiline := false |}.

Definition tightResultAt6 : AssembledPrompt :=
  {| prefix := str "abc"; suffix := []; useFim := true;
     completeMultiline := false |}.

(** A path through a call: the program, the call [g(] that starts at line
    2, column 4, and its argument list. *)
Definition callNode : SyntaxNode :=
  {| type := str "call_expression";
     startPosition := {| row := 2; column := 4 |};
     text := str "g(" |}.

Definition callPath : list SyntaxNode :=
  [ {| type := str "program";
       startPosition := {| row := 0; column := 0 |};
       text := str "let a" ++ nl ++ nl ++ str "    g(" |};
    callNode;
    {| type := str "arguments";
       startPosition := {| row := 2; column := 5 |};
       text := str "(" |} ].

Definition definitionOfG : FileWithContents :=
  {| filepath := str "lib.ts"; contents := str "function g() {}" |}.

(** A definition lookup that knows the call at line 2, column 4 only. *)
Definition sampleDefinition (_ : jsstring) (line character : Z)
    : option FileWithContents :=
  if ((line =? 2) && (character =? 4))%Z then Some definitionOfG else None.

(** A scope lookup that succeeds on a.ts only, with another answer than
    [scopeInA]. *)
Definition otherScopeInA (r : RangeInFileWithContents)
    : option RangeInFileWithContents :=
  if streq (range_filepath r) (str "a.ts") then Some otherRange else None.

(** What the assembler returns on the nested blocks at a large budget. *)
Definition nestedResult : AssembledPrompt :=
  {| prefix := nestedPrefix; suffix := nestedSuffix; useFim := true;
     completeMultiline := false |}.

(** The nested path without its outer block. *)
Definition singleBlockPath : list SyntaxNode :=
  [ {| type := str "program";
       startPosition := {| row := 0; column := 0 |};
       text := nestedPrefix ++ nestedSuffix |};
    {| type := str "if_statement";
       startPosition := {| row := 1; column := 2 |};
       text := str "if (x) {" ++ nl ++ str "  }" |};
    innerBlockNode ].

Definition singleBlockResult : AssembledPrompt :=
  {| prefix := nestedPrefix; suffix := nestedSuffix; useFim := true;
     completeMultiline := true |}.

(** A block with one statement on a line of its own, and one left open. *)
Definition oneStatementBlock : SyntaxNode :=
  {| type := str "statement_block";
     startPosition := {| row := 0; column := 13 |};
     text := str "{" ++ nl ++ str "  return 1;" ++ nl ++ str "}" |}.

Definition openBlock : SyntaxNode :=
  {| type := str "body";
     startPosition := {| row := 0; column := 9 |};
     text := str "{ ab" |}.

(** A window of 90 characters with three tenths of it before the cursor:
    in binary64 the two slice arguments are -27 and 62.999..., that is 62. *)
Definition wideWindowOptions : TabAutocompleteOptions :=
  {| slidingWindowSize := 90;
     slidingWindowPrefixPercentage := 0x1.3333333333333p-2;
     maxPromptTokens := 100;
     prefixPercentage := 1 # 2;
     maxSuffixPercentage := 1 # 4 |}.

(** A window of 4 characters with an eighth of it before the cursor. *)
Definition narrowShareOptions : TabAutocompleteOptions :=
  {| slidingWindowSize := 4;
     slidingWindowPrefixPercentage := 0.125;
     maxPromptTokens := 100;
     prefixPercentage := 1 # 2;
     maxSuffixPercentage := 1 # 4 |}.

(** * Properties *)

Unset Implicit Arguments.

(** ** Strings and arrays *)

Lemma split_is_cons (sep : N) (s : jsstring) :
  exists l ls, split sep s = l :: ls.
Proof.
  induction s as [|c s IH]; simpl.
  - now exists [], [].
  - destruct (N.eqb c sep).
    + now exists [], (split sep s).
    + destruct IH as (l & ls & ->). now exists (c :: l), ls.
Qed.

Lemma split_not_nil (sep : N) (s : jsstring) : split sep s <> [].
Proof. destruct (split_is_cons sep s) as (l & ls & ->). discriminate. Qed.

Lemma join_cons (sep p : jsstring) (l : jsstring) (ls : list jsstring) :
  join sep (p :: l :: ls) = p ++ sep ++ join sep (l :: ls).
Proof. reflexivity. Qed.

Lemma join_split (sep : N) (s : jsstring) : join [sep] (split sep s) = s.
Proof.
  induction s as [|c s IH]; simpl; [reflexivity|].
  destruct (split_is_cons sep s) as (l & ls & E). rewrite E in *.
  destruct (N.eqb_spec c sep) as [->|Hne].
  - rewrite join_cons, IH. reflexivity.
  - destruct ls as [|l' ls].
    + simpl in *. now rewrite IH.
    + rewrite <- IH, !join_cons. reflexivity.
Qed.

Lemma split_without_sep (sep : N) (s : jsstring) :
  ~ In sep s -> split sep s = [s].
Proof.
  induction s as [|c s IH]; simpl; intros H; [reflexivity|].
  destruct (N.eqb_spec c sep) as [->|Hne].
  - exfalso. apply H. now left.
  - rewrite IH; [reflexivity|]. intros Hin. apply H. now right.
Qed.

Lemma split_app_sep (sep : N) (a b : jsstring) :
  split sep (a ++ sep :: b) = split sep a ++ split sep b.
Proof.
  induction a as [|c a IH]; simpl.
  - now rewrite N.eqb_refl.
  - destruct (N.eqb c sep).
    + now rewrite IH.
    + rewrite IH. destruct (split_is_cons sep a) as (l & ls & ->).
      reflexivity.
Qed.

Lemma split_one_line (sep : N) (s : jsstring) :
  length (split sep s) = 1 <-> ~ In sep s.
Proof.
  split.
  - induction s as [|c s IH]; simpl; intros H; [tauto|].
    destruct (N.eqb_spec c sep) as [->|Hne].
    + destruct (split_is_cons sep s) as (l & ls & E).
      rewrite E in H. discriminate.
    + destruct (split_is_cons sep s) as (l & ls & E).
      rewrite E in *. intros [Hc|Hin]; [congruence|]. now apply IH.
  - intros H. now rewrite split_without_sep.
Qed.

Lemma skipn_to_last (A : Type) (l : list A) (d : A) :
  l <> [] -> skipn (length l - 1) l = [last l d].
Proof.
  induction l as [|x l IH]; [congruence|]. intros _.
  destruct l as [|y l]; [reflexivity|].
  replace (length (x :: y :: l) - 1) with (S (length (y :: l) - 1))
    by (simpl; lia).
  rewrite skipn_cons, IH by discriminate. reflexivity.
Qed.

Lemma clampIndex_nonneg (len k : Z) :
  (0 <= k)%Z -> clampIndex len k = Z.min k len.
Proof. intros H. unfold clampIndex. destruct (Z.ltb_spec k 0); [lia|easy]. Qed.

Lemma clampIndex_neg (len k : Z) :
  (k < 0)%Z -> clampIndex len k = Z.max (len + k) 0.
Proof. intros H. unfold clampIndex. destruct (Z.ltb_spec k 0); [easy|lia]. Qed.

Lemma slice_from (A : Type) (s : list A) (k : Z) :
  (0 <= k)%Z -> slice s k None = skipn (Z.to_nat k) s.
Proof.
  intros Hk. unfold slice. rewrite clampIndex_nonneg by assumption.
  destruct (Z.le_gt_cases k (Z.of_nat (length s))) as [Hle|Hgt].
  - rewrite Z.min_l by lia. apply firstn_all2.
    rewrite length_skipn. lia.
  - rewrite Z.min_r by lia. rewrite Nat2Z.id.
    rewrite (skipn_all2 (n := Z.to_nat k)) by lia.
    rewrite skipn_all. apply firstn_nil.
Qed.

Lemma slice_to (A : Type) (s : list A) (e : Z) :
  (0 <= e)%Z -> slice s 0 (Some e) = firstn (Z.to_nat e) s.
Proof.
  intros He. unfold slice. rewrite !clampIndex_nonneg by lia.
  rewrite (Z.min_l 0) by lia. simpl skipn. rewrite Z.sub_0_r.
  destruct (Z.le_gt_cases e (Z.of_nat (length s))) as [Hle|Hgt].
  - now rewrite Z.min_l by lia.
  - rewrite Z.min_r by lia. rewrite Nat2Z.id.
    rewrite firstn_all. symmetry. apply firstn_all2. lia.
Qed.

Lemma slice_drop_last (A : Type) (s : list A) :
  slice s 0 (Some (-1)%Z) = removelast s.
Proof.
  unfold slice.
  rewrite (@clampIndex_nonneg _ 0), (@clampIndex_neg _ (-1)) by lia.
  rewrite (Z.min_l 0) by lia. simpl skipn. rewrite Z.sub_0_r.
  rewrite removelast_firstn_len. f_equal. lia.
Qed.

Lemma slice_last (A : Type) (l : list A) (d : A) :
  l <> [] -> slice l (-1) None = [last l d].
Proof.
  intros Hl. unfold slice. rewrite clampIndex_neg by lia.
  assert (0 < length l) by (destruct l; [congruence|simpl; lia]).
  rewrite Z.max_l by lia.
  replace (Z.to_nat (Z.of_nat (length l) + -1)) with (length l - 1) by lia.
  rewrite (skipn_to_last A l d Hl).
  now replace (Z.to_nat (Z.of_nat (length l) - (Z.of_nat (length l) + -1)))
    with 1 by lia.
Qed.

Lemma findIndex_first (c : N) (a b : jsstring) :
  ~ In c a -> findIndex c (a ++ c :: b) = Some (length a).
Proof.
  induction a as [|x a IH]; simpl; intros H.
  - now rewrite N.eqb_refl.
  - destruct (N.eqb_spec x c) as [->|Hne]; [exfalso; apply H; now left|].
    rewrite IH; [reflexivity|]. intros Hin. apply H. now right.
Qed.

Lemma findIndex_absent (c : N) (s : jsstring) :
  ~ In c s -> findIndex c s = None.
Proof.
  induction s as [|x s IH]; simpl; intros H; [reflexivity|].
  destruct (N.eqb_spec x c) as [->|Hne]; [exfalso; apply H; now left|].
  rewrite IH; [reflexivity|]. intros Hin. apply H. now right.
Qed.

Lemma indexOf_first (c : N) (a b : jsstring) :
  ~ In c a -> indexOf c (a ++ c :: b) = Z.of_nat (length a).
Proof. intros H. unfold indexOf. now rewrite findIndex_first. Qed.

Lemma indexOf_absent (c : N) (s : jsstring) :
  ~ In c s -> indexOf c s = (-1)%Z.
Proof. intros H. unfold indexOf. now rewrite findIndex_absent. Qed.

Lemma lastIndexOf_last (c : N) (a b : jsstring) :
  ~ In c b -> lastIndexOf c (a ++ c :: b) = Z.of_nat (length a).
Proof.
  intros H. unfold lastIndexOf.
  rewrite rev_app_distr. simpl rev. rewrite <- app_assoc. simpl.
  rewrite findIndex_first by (now rewrite <- in_rev).
  rewrite length_rev, length_app. simpl. lia.
Qed.

Lemma lastIndexOf_absent (c : N) (s : jsstring) :
  ~ In c s -> lastIndexOf c s = (-1)%Z.
Proof.
  intros H. unfold lastIndexOf.
  now rewrite findIndex_absent by (now rewrite <- in_rev).
Qed.

Lemma indexOf_lower_bound (c : N) (s : jsstring) : (-1 <= indexOf c s)%Z.
Proof. unfold indexOf. destruct (findIndex c s); lia. Qed.

Lemma in_skipn (A : Type) (x : A) (n : nat) (l : list A) :
  In x (skipn n l) -> In x l.
Proof.
  intros H. rewrite <- (firstn_skipn n l). apply in_or_app. now right.
Qed.

(** ** The inner text of a block *)

Lemma stripToOpeningBrace_skips (t : jsstring) :
  stripToOpeningBrace t = skipn (Z.to_nat (indexOf LBRACE t + 1)) t.
Proof.
  unfold stripToOpeningBrace. apply slice_from.
  pose proof (indexOf_lower_bound LBRACE t). lia.
Qed.

Lemma stripToOpeningBrace_after (a rest : jsstring) :
  ~ In LBRACE a -> stripToOpeningBrace (a ++ LBRACE :: rest) = rest.
Proof.
  intros H. rewrite stripToOpeningBrace_skips, indexOf_first by assumption.
  replace (Z.to_nat (Z.of_nat (length a) + 1)) with (length a + 1) by lia.
  rewrite skipn_app, skipn_all2 by lia.
  now replace (length a + 1 - length a) with 1 by lia.
Qed.

Lemma stripToOpeningBrace_absent (t : jsstring) :
  ~ In LBRACE t -> stripToOpeningBrace t = t.
Proof.
  intros H. rewrite stripToOpeningBrace_skips, indexOf_absent by assumption.
  reflexivity.
Qed.

Lemma stripFromClosingBrace_before (b c : jsstring) :
  ~ In RBRACE c -> stripFromClosingBrace (b ++ RBRACE :: c) = b.
Proof.
  intros H. unfold stripFromClosingBrace.
  rewrite lastIndexOf_last by assumption.
  rewrite slice_to by lia. rewrite Nat2Z.id.
  rewrite firstn_app, firstn_all, Nat.sub_diag. simpl. apply app_nil_r.
Qed.

Lemma stripFromClosingBrace_absent (t : jsstring) :
  ~ In RBRACE t -> stripFromClosingBrace t = removelast t.
Proof.
  intros H. unfold stripFromClosingBrace.
  rewrite lastIndexOf_absent by assumption. apply slice_drop_last.
Qed.

Lemma innerText_between (a b c : jsstring) :
  ~ In LBRACE a -> ~ In RBRACE c ->
  innerText (a ++ LBRACE :: b ++ RBRACE :: c) = trim b.
Proof.
  intros Ha Hc. unfold innerText.
  now rewrite stripToOpeningBrace_after, stripFromClosingBrace_before.
Qed.

Lemma spansOneLine_iff (t : jsstring) :
  spansOneLine t = true <-> ~ In LF t.
Proof.
  unfold spansOneLine. rewrite Nat.eqb_eq. apply split_one_line.
Qed.

(** ** The loop of the heuristic *)

Lemma firstn_succ_nth (A : Type) (l : list A) (i : nat) (x : A) :
  nth_error l i = Some x -> firstn (S i) l = firstn i l ++ [x].
Proof.
  revert i. induction l as [|y l IH]; intros [|i] H; try discriminate H.
  - injection H as ->. reflexivity.
  - simpl in H. rewrite firstn_cons, (IH _ H). reflexivity.
Qed.

(** The loop started at index [n - 1] answers by the first qualifying node
    among the first [n] nodes read backwards. *)
Lemma scanFrom_find (treePath : list SyntaxNode) (cursorLine : Z) (n : nat) :
  n <= length treePath ->
  scanFrom treePath cursorLine n =
  match find (fun node => qualifies node cursorLine)
             (rev (firstn n treePath)) with
  | Some node => spansOneLine (innerText (text node))
  | None => false
  end.
Proof.
  induction n as [|i IH]; intros Hn; [reflexivity|].
  destruct (nth_error treePath i) as [x|] eqn:Hx.
  - simpl scanFrom. rewrite Hx, (@firstn_succ_nth _ _ _ _ Hx), rev_unit. simpl.
    destruct (qualifies x cursorLine); [reflexivity|]. apply IH. lia.
  - apply nth_error_None in Hx. lia.
Qed.

Lemma scanFrom_innermostBlock (treePath : list SyntaxNode) (cursorLine : Z) :
  scanFrom treePath cursorLine (length treePath) =
  match innermostBlock treePath cursorLine with
  | Some node => spansOneLine (innerText (text node))
  | None => false
  end.
Proof.
  rewrite scanFrom_find by lia. now rewrite firstn_all.
Qed.

(** C6: on a path of more than one node the heuristic answers by the first
    qualifying block met from the end of the path: true when its inner text
    spans one line, false when it spans more, and false when no node
    qualifies.  The inner text of a text of the shape [a { b } c], with no
    opening brace in [a] and no closing brace in [c], is [b] trimmed; a text
    spans one line exactly when it holds no line feed, the empty text
    included. *)
Theorem shouldCompleteMultiline_first_block
    (treePath : list SyntaxNode) (cursorLine : Z) :
  1 < length treePath ->
  (forall node, innermostBlock treePath cursorLine = Some node ->
     (~ In LF (innerText (text node)) ->
      shouldCompleteMultiline treePath cursorLine = true)
     /\ (In LF (innerText (text node)) ->
         shouldCompleteMultiline treePath cursorLine = false)
     /\ qualifies node cursorLine = true)
  /\ (innermostBlock treePath cursorLine = None ->
      shouldCompleteMultiline treePath cursorLine = false)
  /\ (forall a b c, ~ In LBRACE a -> ~ In RBRACE c ->
        innerText (a ++ LBRACE :: b ++ RBRACE :: c) = trim b)
  /\ spansOneLine [] = true.
Proof.
  intros Hlen.
  assert (Hrun : shouldCompleteMultiline treePath cursorLine =
                 scanFrom treePath cursorLine (length treePath)).
  { unfold shouldCompleteMultiline.
    destruct (Nat.eqb_spec (length treePath) 1); [lia|reflexivity]. }
  rewrite Hrun, scanFrom_innermostBlock.
  repeat split.
  - intros Hone. rewrite H. now apply spansOneLine_iff.
  - intros Hmany. rewrite H.
    destruct (spansOneLine (innerText (text node))) eqn:E; [|reflexivity].
    apply spansOneLine_iff in E. contradiction.
  - unfold innermostBlock in H. now apply find_some in H.
  - intros ->. reflexivity.
  - intros a b c. apply innerText_between.
Qed.

Lemma shouldCompleteMultiline_first_block_witness :
  1 < length [outerBlockNode; innerBlockNode]
  /\ shouldCompleteMultiline [outerBlockNode; innerBlockNode] 1 = true.
Proof.
  assert (Hlen : 1 < length [outerBlockNode; innerBlockNode])
    by (simpl; lia).
  split; [exact Hlen|].
  destruct (@shouldCompleteMultiline_first_block
              [outerBlockNode; innerBlockNode] 1 Hlen) as (Hsome & _).
  destruct (Hsome innerBlockNode eq_refl) as (Hone & _).
  apply Hone. vm_compute. tauto.
Defined.

(** C7: a path of exactly one node makes the heuristic answer true, and an
    assembled result built from such a path carries a true
    [completeMultiline], whatever the rest of the request. *)
Theorem single_node_path_completes_multiline
    (E : Collaborators)
    (filepath fullPrefix fullSuffix clipboardText : jsstring)
    (language : AutocompleteLanguageInfo)
    (getDefinition : jsstring -> Z -> Z -> option FileWithContents)
    (options : TabAutocompleteOptions)
    (recentlyEditedRanges : list RangeInFileWithContents)
    (recentlyEditedDocuments : list FileWithContents)
    (node : SyntaxNode) (result : AssembledPrompt) :
  parseTreePath E filepath fullPrefix fullSuffix = Some [node] ->
  constructAutocompletePrompt E filepath fullPrefix fullSuffix clipboardText
    language getDefinition options recentlyEditedRanges
    recentlyEditedDocuments = Returned result ->
  (forall cursorLine, shouldCompleteMultiline [node] cursorLine = true)
  /\ completeMultiline result = true.
Proof.
  intros Hpath Hrun. split; [reflexivity|].
  unfold constructAutocompletePrompt, gatherSnippets in Hrun.
  rewrite Hpath in Hrun. simpl in Hrun.
  unfold assemble in Hrun.
  destruct (formatAll E language _); [|discriminate].
  injection Hrun as <-. reflexivity.
Qed.

Lemma single_node_path_completes_multiline_witness :
  exists result,
    constructAutocompletePrompt
      (sampleCollaborators (Some [innerBlockNode]) noScope)
      (str "a.ts") (str "let x = 1") [] [] TypescriptProfile noDefinition
      (sampleOptions 100) [] [] = Returned result
    /\ completeMultiline result = true.
Proof.
  eexists. split; [vm_compute; reflexivity|].
  refine (proj2 (@single_node_path_completes_multiline
                   (sampleCollaborators (Some [innerBlockNode]) noScope)
                   (str "a.ts") (str "let x = 1") [] [] TypescriptProfile
                   noDefinition (sampleOptions 100) [] [] innerBlockNode
                   _ _ _)).
  - reflexivity.
  - vm_compute. reflexivity.
Defined.

(** C10: when the text of the block holds no opening brace the first slice
    keeps all of it; when it holds no closing brace the second slice removes
    the last character and nothing else; the heuristic then answers by the
    trimmed remainder, and it answers on every non-empty path. *)
Theorem innerText_without_braces (t : jsstring) :
  (~ In LBRACE t -> stripToOpeningBrace t = t)
  /\ (~ In RBRACE t ->
      stripFromClosingBrace (stripToOpeningBrace t)
      = removelast (stripToOpeningBrace t)
      /\ (stripToOpeningBrace t <> [] ->
          stripToOpeningBrace t
          = stripFromClosingBrace (stripToOpeningBrace t)
            ++ [last (stripToOpeningBrace t) 0%N]))
  /\ (~ In LBRACE t -> ~ In RBRACE t -> innerText t = trim (removelast t))
  /\ (forall treePath cursorLine node,
        1 < length treePath ->
        innermostBlock treePath cursorLine = Some node ->
        text node = t -> ~ In LBRACE t -> ~ In RBRACE t ->
        shouldCompleteMultiline treePath cursorLine
        = spansOneLine (trim (removelast t)))
  /\ (forall treePath cursorLine, treePath <> [] ->
        exists answer : bool,
          shouldCompleteMultiline treePath cursorLine = answer).
Proof.
  assert (Hclose : ~ In RBRACE t ->
                   stripFromClosingBrace (stripToOpeningBrace t)
                   = removelast (stripToOpeningBrace t)).
  { intros H. apply stripFromClosingBrace_absent.
    rewrite stripToOpeningBrace_skips. intros Hin.
    apply H. eapply in_skipn. exact Hin. }
  assert (Hinner : ~ In LBRACE t -> ~ In RBRACE t ->
                   innerText t = trim (removelast t)).
  { intros Hopen Hclosing. unfold innerText.
    rewrite (Hclose Hclosing). now rewrite stripToOpeningBrace_absent. }
  split; [apply stripToOpeningBrace_absent|].
  split; [|split; [exact Hinner|split]].
  - intros H. split; [now apply Hclose|].
    intros Hne. rewrite (Hclose H). now apply app_removelast_last.
  - intros treePath cursorLine node Hlen Hnode Htext Hopen Hclosing.
    unfold shouldCompleteMultiline.
    destruct (Nat.eqb_spec (length treePath) 1) as [Hone|_]; [lia|].
    rewrite scanFrom_innermostBlock, Hnode, Htext. now rewrite Hinner.
  - intros treePath cursorLine _. eexists. reflexivity.
Qed.

Lemma innerText_without_braces_witness :
  innerText (str "pass") = str "pas".
Proof.
  destruct (innerText_without_braces (str "pass")) as (_ & _ & H & _ & _).
  rewrite H.
  - vm_compute. reflexivity.
  - vm_compute. intuition discriminate.
  - vm_compute. intuition discriminate.
Defined.

(** ** Language profile resolver *)

Lemma last_split_after_dot (a b : jsstring) :
  ~ In DOT b -> last (split DOT (a ++ DOT :: b)) [] = b.
Proof.
  intros H. rewrite split_app_sep, (split_without_sep _ _ H).
  apply last_last.
Qed.

Lemma languageForFilepath_key
    (LANGUAGES : jsstring -> option AutocompleteLanguageInfo)
    (Typescript : AutocompleteLanguageInfo) (filepath : jsstring) :
  languageForFilepath LANGUAGES Typescript filepath =
  match propertyRead LANGUAGES (last (split DOT filepath) []) with
  | Some value => value
  | None => LanguageInfo Typescript
  end.
Proof.
  unfold languageForFilepath.
  now rewrite (slice_last _ _ [] (split_not_nil DOT filepath)).
Qed.

(** What the resolver does on every path: the key read is the text after
    the last dot, and the whole path when the path holds no dot; the answer
    is the entry of the table under that key, else the member of
    [Object.prototype] of that name, else the default profile. *)
Lemma languageForFilepath_lookup
    (LANGUAGES : jsstring -> option AutocompleteLanguageInfo)
    (Typescript : AutocompleteLanguageInfo) (filepath : jsstring) :
  let key := last (split DOT filepath) [] in
  (forall a b, filepath = a ++ DOT :: b -> ~ In DOT b -> key = b)
  /\ (~ In DOT filepath -> key = filepath)
  /\ (forall language, LANGUAGES key = Some language ->
        languageForFilepath LANGUAGES Typescript filepath
        = LanguageInfo language)
  /\ (LANGUAGES key = None ->
      existsb (streq key) objectPrototypeMembers = true ->
      languageForFilepath LANGUAGES Typescript filepath
      = ObjectPrototypeMember key)
  /\ (LANGUAGES key = None ->
      existsb (streq key) objectPrototypeMembers = false ->
      languageForFilepath LANGUAGES Typescript filepath
      = LanguageInfo Typescript).
Proof.
  intros key. repeat split.
  - intros a b -> Hb. now apply last_split_after_dot.
  - intros H. unfold key. now rewrite split_without_sep.
  - intros language H. rewrite languageForFilepath_key. fold key.
    unfold propertyRead. now rewrite H.
  - intros H Hm. rewrite languageForFilepath_key. fold key.
    unfold propertyRead. now rewrite H, Hm.
  - intros H Hm. rewrite languageForFilepath_key. fold key.
    unfold propertyRead. now rewrite H, Hm.
Qed.

(** C8: the resolver misses the default twice.  The path [py] holds no dot,
    so it has no extension, yet it resolves to the entry of the table under
    [py]; the path [src/a.constructor] has an extension the table does not
    know, yet it resolves to the [constructor] member that the table
    inherits from [Object.prototype].  A path with an unknown extension
    that names no such member resolves to the default. *)
Theorem languageForFilepath_misses_default :
  ~ In DOT (str "py")
  /\ languageForFilepath sampleLanguages TypescriptProfile (str "py")
     = LanguageInfo PythonProfile
  /\ sampleLanguages (str "constructor") = None
  /\ languageForFilepath sampleLanguages TypescriptProfile
       (str "src/a.constructor")
     = ObjectPrototypeMember (str "constructor")
  /\ languageForFilepath sampleLanguages TypescriptProfile
       (str "src/main.rs")
     = LanguageInfo TypescriptProfile.
Proof.
  split; [vm_compute; intuition discriminate|].
  repeat split; vm_compute; reflexivity.
Qed.

(** ** The window around the cursor *)

(** What line 92 takes from the suffix: everything but its first
    characters. *)
Lemma windowAroundCursor_suffix_part (options : TabAutocompleteOptions)
    (fullPrefix fullSuffix : jsstring) (after : Z) :
  toIntegerOrInfinity
    (slidingWindowSize options
     * (1 - slidingWindowPrefixPercentage options))%float = Finite after ->
  (0 <= after)%Z ->
  windowAroundCursor options fullPrefix fullSuffix
  = sliceFromNumber fullPrefix
      (- slidingWindowSize options
       * slidingWindowPrefixPercentage options)%float
    ++ skipn (Z.to_nat after) fullSuffix.
Proof.
  intros Hafter H. unfold windowAroundCursor. f_equal.
  unfold sliceFromNumber. rewrite Hafter.
  exact (slice_from _ fullSuffix after H).
Qed.

(** C1: with a window of four characters split evenly, prefix [abcd] and
    suffix [wxyz], the code builds [cdyz], the end of the suffix, where the
    window described is [cdwx]. *)
Theorem windowAroundCursor_takes_suffix_end :
  windowAroundCursor (sampleOptions 100) (str "abcd") (str "wxyz")
  = str "cdyz"
  /\ specWindowAroundCursor (sampleOptions 100) (str "abcd") (str "wxyz")
     = str "cdwx".
Proof. split; vm_compute; reflexivity. Qed.

(** ** Recently edited ranges *)

(** Nothing is filtered out: every range yields one entry, [null] when its
    scope lookup answers nothing. *)
Lemma recentlyEdited_map (E : Collaborators)
    (ranges : list RangeInFileWithContents) :
  recentlyEdited E ranges =
  map (fun r => match getScopeAroundRange E r with
                | None => None
                | Some _ => Some {| filepath := range_filepath r;
                                    contents := range_contents r |}
                end) ranges.
Proof.
  unfold recentlyEdited, Promise_all.
  induction ranges as [|r ranges IH]; [reflexivity|].
  simpl. now rewrite IH.
Qed.

(** C2: a range whose scope lookup answers nothing stays in the candidate
    list as a [null] entry, which the ranker receives; with a ranker that
    keeps its input the formatting step then throws, and the snippet of the
    other range is lost with it. *)
Theorem recentlyEdited_keeps_null_entry :
  let E := sampleCollaborators None scopeInA in
  recentlyEdited E [sampleRange; otherRange]
  = [Some {| filepath := str "a.ts"; contents := str "x" |}; None]
  /\ fst (gatherSnippets E (str "c.ts") (str "abcd") (str "wxyz") noDefinition
            (sampleOptions 100) [sampleRange; otherRange] [])
     = [Some {| filepath := str "a.ts"; contents := str "x" |}; None]
  /\ constructAutocompletePrompt E (str "c.ts") (str "abcd") (str "wxyz") []
       TypescriptProfile noDefinition (sampleOptions 100)
       [sampleRange; otherRange] []
     = ThrownTypeError.
Proof. repeat split; vm_compute; reflexivity. Qed.

(** ** The path handed to the heuristic *)

(** The loop of lines 135-140 leaves the array reversed: the heuristic is
    run on the path read leaf to root. *)
Lemma gatherSnippets_decision (E : Collaborators)
    (filepath fullPrefix fullSuffix : jsstring)
    (getDefinition : jsstring -> Z -> Z -> option FileWithContents)
    (options : TabAutocompleteOptions)
    (ranges : list RangeInFileWithContents)
    (documents : list FileWithContents) (treePath : list SyntaxNode) :
  parseTreePath E filepath fullPrefix fullSuffix = Some treePath ->
  snd (gatherSnippets E filepath fullPrefix fullSuffix getDefinition options
         ranges documents)
  = shouldCompleteMultiline (rev treePath)
      (Z.of_nat (length (split LF fullPrefix)) - 1).
Proof.
  intros H. unfold gatherSnippets. rewrite H. reflexivity.
Qed.

(** C3: on the nested blocks, whose innermost qualifying block is empty,
    the heuristic run on the path as the parser gives it answers true, but
    the assembler answers false: it decides by the outer block. *)
Theorem nested_blocks_decided_by_outer_block :
  let E := sampleCollaborators (Some nestedPath) noScope in
  innermostBlock nestedPath 1 = Some innerBlockNode
  /\ shouldCompleteMultiline nestedPath 1 = true
  /\ (Z.of_nat (length (split LF nestedPrefix)) - 1 = 1)%Z
  /\ exists result,
       constructAutocompletePrompt E (str "a.ts") nestedPrefix nestedSuffix []
         TypescriptProfile noDefinition (sampleOptions 100) [] []
       = Returned result
       /\ completeMultiline result = false.
Proof.
  repeat split; try (vm_compute; reflexivity).
  eexists. split; vm_compute; reflexivity.
Qed.

(** ** Joining lines *)

Lemma join_starts_with_first (sep p : jsstring) (rest : list jsstring) :
  exists tail, join sep (p :: rest) = p ++ tail.
Proof.
  destruct rest as [|q rest].
  - exists []. simpl. now rewrite app_nil_r.
  - eexists. apply join_cons.
Qed.

Lemma join_skipn_is_tail (sep : jsstring) (k : nat) (lines : list jsstring) :
  exists dropped, join sep lines = dropped ++ join sep (skipn k lines).
Proof.
  revert k. induction lines as [|l lines IH]; intros [|k].
  - now exists [].
  - now exists [].
  - now exists [].
  - destruct (IH k) as (dropped & Hd). simpl skipn.
    destruct lines as [|l' lines].
    + exists l. rewrite skipn_nil. simpl. now rewrite app_nil_r.
    + exists (l ++ sep ++ dropped).
      rewrite join_cons, Hd, <- !app_assoc. reflexivity.
Qed.

Lemma join_firstn_is_head (sep : jsstring) (k : nat) (lines : list jsstring) :
  exists dropped, join sep lines = join sep (firstn k lines) ++ dropped.
Proof.
  revert k. induction lines as [|l lines IH]; intros [|k].
  - now exists [].
  - now exists [].
  - now exists (join sep (l :: lines)).
  - destruct (IH k) as (dropped & Hd). simpl firstn.
    destruct lines as [|l' lines].
    + exists []. rewrite firstn_nil. simpl. now rewrite app_nil_r.
    + destruct k as [|k].
      * exists (sep ++ join sep (l' :: lines)). now rewrite join_cons.
      * exists dropped. simpl firstn in *.
        rewrite !join_cons, Hd, <- !app_assoc. reflexivity.
Qed.

(** ** The line pruners of the specification *)

Section Pruners.

Variable count : jsstring -> N.

Lemma dropLinesFromTop_skipn (maxTokens : Q) (lines : list jsstring) :
  exists k, k <= length lines
            /\ dropLinesFromTop count maxTokens lines = skipn k lines.
Proof.
  induction lines as [|l lines IH]; simpl.
  - exists 0. split; [lia|]. now destruct (Qle_bool _ _).
  - destruct (Qle_bool _ _).
    + exists 0. split; [lia|reflexivity].
    + destruct IH as (k & Hk & ->). exists (S k). split; [lia|reflexivity].
Qed.

Lemma dropLinesFromBottom_skipn (maxTokens : Q) (rlines : list jsstring) :
  exists k, k <= length rlines
            /\ dropLinesFromBottom count maxTokens rlines = skipn k rlines.
Proof.
  induction rlines as [|l rlines IH]; simpl.
  - exists 0. split; [lia|]. now destruct (Qle_bool _ _).
  - destruct (Qle_bool _ _).
    + exists 0. split; [lia|reflexivity].
    + destruct IH as (k & Hk & ->). exists (S k). split; [lia|reflexivity].
Qed.

(** What a pruner leaves fits the budget, unless it left nothing. *)
Lemma dropLinesFromBottom_fits (maxTokens : Q) (rlines : list jsstring) :
  dropLinesFromBottom count maxTokens rlines = []
  \/ (tokens (count (join nl (rev (dropLinesFromBottom count maxTokens
                                     rlines)))) <= maxTokens)%Q.
Proof.
  induction rlines as [|l rlines IH]; simpl.
  - left. now destruct (Qle_bool _ _).
  - destruct (Qle_bool _ _) eqn:Hfit.
    + right. now apply Qle_bool_iff.
    + exact IH.
Qed.

(** A larger budget removes no more lines. *)
Lemma dropLinesFromTop_monotone (small large : Q) (lines : list jsstring) :
  (small <= large)%Q ->
  exists j, dropLinesFromTop count small lines
            = skipn j (dropLinesFromTop count large lines).
Proof.
  intros Hle. induction lines as [|l lines IH].
  - exists 0. simpl. now destruct (Qle_bool _ small), (Qle_bool _ large).
  - simpl. destruct (Qle_bool _ large) eqn:Hlarge.
    + destruct (dropLinesFromTop_skipn small (l :: lines)) as (k & _ & Hk).
      exists k. exact Hk.
    + destruct (Qle_bool _ small) eqn:Hsmall; [|exact IH].
      apply Qle_bool_iff in Hsmall.
      assert (Hfit : Qle_bool (tokens (count (join nl (l :: lines)))) large
                     = true)
        by (apply Qle_bool_iff; eapply Qle_trans; eassumption).
      simpl in Hfit. congruence.
Qed.

Lemma dropLinesFromBottom_monotone (small large : Q)
    (rlines : list jsstring) :
  (small <= large)%Q ->
  exists j, dropLinesFromBottom count small rlines
            = skipn j (dropLinesFromBottom count large rlines).
Proof.
  intros Hle. induction rlines as [|l rlines IH].
  - exists 0. simpl. now destruct (Qle_bool _ small), (Qle_bool _ large).
  - simpl. destruct (Qle_bool _ large) eqn:Hlarge.
    + destruct (dropLinesFromBottom_skipn small (l :: rlines))
        as (k & _ & Hk).
      exists k. exact Hk.
    + destruct (Qle_bool _ small) eqn:Hsmall; [|exact IH].
      apply Qle_bool_iff in Hsmall.
      assert (Hfit : Qle_bool
                       (tokens (count (join nl (rev (l :: rlines))))) large
                     = true)
        by (apply Qle_bool_iff; eapply Qle_trans; eassumption).
      simpl in Hfit. congruence.
Qed.

Lemma specPruneLinesFromTop_lines (prompt : jsstring) (maxTokens : Q) :
  exists k, specPruneLinesFromTop count prompt maxTokens
            = join nl (skipn k (split LF prompt)).
Proof.
  unfold specPruneLinesFromTop.
  destruct (dropLinesFromTop_skipn maxTokens (split LF prompt))
    as (k & _ & ->).
  now exists k.
Qed.

Lemma specPruneLinesFromTop_tail (prompt : jsstring) (maxTokens : Q) :
  exists dropped,
    prompt = dropped ++ specPruneLinesFromTop count prompt maxTokens.
Proof.
  destruct (specPruneLinesFromTop_lines prompt maxTokens) as (k & ->).
  destruct (join_skipn_is_tail nl k (split LF prompt)) as (dropped & Hd).
  exists dropped. rewrite <- Hd. symmetry. apply join_split.
Qed.

Lemma rev_skipn_rev (A : Type) (k : nat) (l : list A) :
  rev (skipn k (rev l)) = firstn (length l - k) l.
Proof. now rewrite skipn_rev, rev_involutive. Qed.

Lemma specPruneLinesFromBottom_lines (prompt : jsstring) (maxTokens : Q) :
  exists kept,
    kept <= length (split LF prompt)
    /\ specPruneLinesFromBottom count prompt maxTokens
       = join nl (firstn kept (split LF prompt))
    /\ (kept = 0
        \/ (tokens (count (specPruneLinesFromBottom count prompt maxTokens))
            <= maxTokens)%Q).
Proof.
  unfold specPruneLinesFromBottom.
  destruct (dropLinesFromBottom_fits maxTokens (rev (split LF prompt)))
    as [Hnone|Hfit];
    destruct (dropLinesFromBottom_skipn maxTokens (rev (split LF prompt)))
      as (k & Hk & Hdrop).
  - exists 0. split; [lia|]. rewrite Hnone. simpl. tauto.
  - exists (length (split LF prompt) - k). split; [lia|].
    rewrite Hdrop in *. rewrite rev_skipn_rev in *. tauto.
Qed.

Lemma specPruneLinesFromBottom_head (prompt : jsstring) (maxTokens : Q) :
  exists dropped,
    prompt = specPruneLinesFromBottom count prompt maxTokens ++ dropped.
Proof.
  destruct (specPruneLinesFromBottom_lines prompt maxTokens)
    as (kept & _ & -> & _).
  destruct (join_firstn_is_head nl kept (split LF prompt))
    as (dropped & Hd).
  exists dropped. rewrite <- Hd. symmetry. apply join_split.
Qed.

End Pruners.

(** ** Formatting the ranked snippets *)

Lemma formatAll_some (E : Collaborators) (language : AutocompleteLanguageInfo)
    (snippets : list (option FileWithContents)) (blocks : list jsstring) :
  formatAll E language snippets = Some blocks ->
  exists ranked,
    snippets = map Some ranked
    /\ blocks = map (formatSnippet E language) ranked.
Proof.
  revert blocks. induction snippets as [|[s|] snippets IH]; simpl; intros blocks H.
  - injection H as <-. now exists [].
  - destruct (formatAll E language snippets) as [bs|]; [|discriminate].
    injection H as <-. destruct (IH bs eq_refl) as (ranked & -> & ->).
    now exists (s :: ranked).
  - discriminate.
Qed.

Lemma formatAll_map_Some (E : Collaborators)
    (language : AutocompleteLanguageInfo) (ranked : list FileWithContents) :
  formatAll E language (map Some ranked)
  = Some (map (formatSnippet E language) ranked).
Proof.
  induction ranked as [|s ranked IH]; simpl; [reflexivity|]. now rewrite IH.
Qed.

Lemma formatSnippet_not_empty (E : Collaborators)
    (language : AutocompleteLanguageInfo) (snippet : FileWithContents) :
  0 < length (formatSnippet E language snippet).
Proof.
  unfold formatSnippet, formatExternalSnippet.
  match goal with
  | |- 0 < length (join nl ([?header] ++ ?rest)) =>
      destruct (join_starts_with_first nl header rest) as (tail & Ht);
      change ([header] ++ rest) with (header :: rest); rewrite Ht
  end.
  rewrite !length_app. simpl. lia.
Qed.

Lemma formattedSnippets_empty_iff (E : Collaborators)
    (language : AutocompleteLanguageInfo) (ranked : list FileWithContents) :
  Nat.ltb 0 (length (join nl (map (formatSnippet E language) ranked)))
  = match ranked with [] => false | _ :: _ => true end.
Proof.
  destruct ranked as [|s ranked]; [reflexivity|].
  simpl map.
  destruct (join_starts_with_first nl (formatSnippet E language s)
              (map (formatSnippet E language) ranked)) as (tail & ->).
  apply Nat.ltb_lt. rewrite length_app.
  pose proof (formatSnippet_not_empty E language s). lia.
Qed.

(** ** The assembled prompt *)

Lemma constructAutocompletePrompt_stages (E : Collaborators)
    (filepath fullPrefix fullSuffix clipboardText : jsstring)
    (language : AutocompleteLanguageInfo)
    (getDefinition : jsstring -> Z -> Z -> option FileWithContents)
    (options : TabAutocompleteOptions)
    (ranges : list RangeInFileWithContents)
    (documents : list FileWithContents) :
  constructAutocompletePrompt E filepath fullPrefix fullSuffix clipboardText
    language getDefinition options ranges documents
  = assemble E language options fullPrefix fullSuffix
      (windowAroundCursor options fullPrefix fullSuffix)
      (fst (gatherSnippets E filepath fullPrefix fullSuffix getDefinition
              options ranges documents))
      (snd (gatherSnippets E filepath fullPrefix fullSuffix getDefinition
              options ranges documents)).
Proof.
  unfold constructAutocompletePrompt.
  now destruct (gatherSnippets E filepath fullPrefix fullSuffix getDefinition
                  options ranges documents).
Qed.

Lemma assemble_returned (E : Collaborators)
    (language : AutocompleteLanguageInfo) (options : TabAutocompleteOptions)
    (fullPrefix fullSuffix window : jsstring)
    (snippets : list (option FileWithContents)) (decision : bool)
    (result : AssembledPrompt) :
  assemble E language options fullPrefix fullSuffix window snippets decision
  = Returned result ->
  exists ranked,
    rankSnippets E snippets window = map Some ranked
    /\ prefix result
       = buildPrefix E options fullPrefix
           (join nl (map (formatSnippet E language) ranked))
    /\ suffix result
       = pruneLinesFromBottom E fullSuffix
           (maxSuffixTokens E options (prefix result))
    /\ useFim result = true
    /\ completeMultiline result = decision.
Proof.
  unfold assemble. intros H.
  destruct (formatAll E language (rankSnippets E snippets window))
    as [blocks|] eqn:Hf; [|discriminate].
  destruct (formatAll_some _ _ _ _ Hf) as (ranked & Hr & ->).
  injection H as <-. exists ranked. simpl. tauto.
Qed.

(** The assembler returns as soon as the ranker hands back no [null]. *)
Lemma assemble_returns (E : Collaborators)
    (language : AutocompleteLanguageInfo) (options : TabAutocompleteOptions)
    (fullPrefix fullSuffix window : jsstring)
    (snippets : list (option FileWithContents)) (decision : bool)
    (ranked : list FileWithContents) :
  rankSnippets E snippets window = map Some ranked ->
  exists result,
    assemble E language options fullPrefix fullSuffix window snippets decision
    = Returned result.
Proof.
  intros H. unfold assemble. rewrite H, formatAll_map_Some.
  eexists. reflexivity.
Qed.

Lemma buildPrefix_cases (E : Collaborators) (language : AutocompleteLanguageInfo)
    (options : TabAutocompleteOptions) (fullPrefix : jsstring)
    (ranked : list FileWithContents) :
  let formatted := join nl (map (formatSnippet E language) ranked) in
  let pruned :=
    pruneLinesFromTop E fullPrefix (maxPrefixTokens E options formatted) in
  buildPrefix E options fullPrefix formatted
  = match ranked with
    | [] => pruned
    | _ :: _ => formatted ++ nl ++ pruned
    end.
Proof.
  intros formatted pruned. unfold buildPrefix, prependSnippets.
  fold pruned. unfold formatted at 1. rewrite formattedSnippets_empty_iff.
  now destruct ranked.
Qed.

Section Assembled.

Variable E : Collaborators.
Variables filepath fullPrefix fullSuffix clipboardText : jsstring.
Variable language : AutocompleteLanguageInfo.
Variable getDefinition : jsstring -> Z -> Z -> option FileWithContents.
Variable options : TabAutocompleteOptions.
Variable ranges : list RangeInFileWithContents.
Variable documents : list FileWithContents.

(** C4: in a returned prompt the prefix is the formatted ranked snippets,
    one line feed, and the pruned original prefix, or the pruned original
    prefix alone when there is no snippet; the suffix is a pruning of the
    original suffix alone.  With the pruners of the specification the
    pruned prefix is an end of the original prefix and the returned suffix
    a beginning of the original suffix. *)
Theorem prefix_is_snippets_then_pruned_prefix (result : AssembledPrompt) :
  constructAutocompletePrompt E filepath fullPrefix fullSuffix clipboardText
    language getDefinition options ranges documents = Returned result ->
  exists ranked : list FileWithContents,
    rankSnippets E
      (fst (gatherSnippets E filepath fullPrefix fullSuffix getDefinition
              options ranges documents))
      (windowAroundCursor options fullPrefix fullSuffix)
    = map Some ranked
    /\ let formatted := join nl (map (formatSnippet E language) ranked) in
       let pruned :=
         pruneLinesFromTop E fullPrefix
           (maxPrefixTokens E options formatted) in
       prefix result
       = match ranked with
         | [] => pruned
         | _ :: _ => formatted ++ nl ++ pruned
         end
       /\ (exists budget,
             suffix result = pruneLinesFromBottom E fullSuffix budget)
       /\ (usesSpecPruners E ->
           (exists dropped, fullPrefix = dropped ++ pruned)
           /\ (exists dropped, fullSuffix = suffix result ++ dropped)).
Proof.
  rewrite constructAutocompletePrompt_stages. intros H.
  destruct (assemble_returned _ _ _ _ _ _ _ _ _ H)
    as (ranked & Hranked & Hprefix & Hsuffix & _).
  exists ranked. split; [exact Hranked|]. intros formatted pruned.
  split; [|split].
  - rewrite Hprefix. apply buildPrefix_cases.
  - eexists. exact Hsuffix.
  - intros (Htop & Hbottom). split.
    + unfold pruned. rewrite Htop. apply specPruneLinesFromTop_tail.
    + rewrite Hsuffix, Hbottom. apply specPruneLinesFromBottom_head.
Qed.


End Assembled.

Lemma sampleCollaborators_usesSpecPruners path scope :
  usesSpecPruners (sampleCollaborators path scope).
Proof. split; reflexivity. Qed.

Lemma prefix_is_snippets_then_pruned_prefix_witness :
  sampleRun 100 = Returned sampleResult
  /\ exists dropped,
       nl ++ str "let c" = suffix sampleResult ++ dropped.
Proof.
  assert (Hrun : sampleRun 100 = Returned sampleResult)
    by (vm_compute; reflexivity).
  split; [exact Hrun|].
  destruct (prefix_is_snippets_then_pruned_prefix _ _ _ _ _ _ _ _ _ _ _ Hrun)
    as (ranked & _ & _ & _ & Hspec).
  apply Hspec. split; reflexivity.
Defined.


(** ** The budget *)

Lemma map_Some_injective (A : Type) (l l' : list A) :
  map Some l = map Some l' -> l = l'.
Proof.
  revert l'. induction l as [|x l IH]; intros [|y l'] H; try discriminate H.
  - reflexivity.
  - simpl in H. injection H as -> H. now rewrite (IH _ H).
Qed.

Lemma maxPrefixTokens_monotone (E : Collaborators)
    (options : TabAutocompleteOptions) (small large : Q)
    (formatted : jsstring) :
  (0 <= prefixPercentage options)%Q -> (small <= large)%Q ->
  (maxPrefixTokens E (withMaxPromptTokens options small) formatted
   <= maxPrefixTokens E (withMaxPromptTokens options large) formatted)%Q.
Proof.
  intros Hp Hle. unfold maxPrefixTokens, Qminus. simpl.
  apply Qplus_le_compat; [|apply Qle_refl].
  now apply Qmult_le_compat_r.
Qed.

Lemma maxSuffixTokens_monotone (E : Collaborators)
    (options : TabAutocompleteOptions) (small large : Q)
    (prefix : jsstring) :
  (0 <= maxSuffixPercentage options)%Q -> (small <= large)%Q ->
  (maxSuffixTokens E (withMaxPromptTokens options small) prefix
   <= maxSuffixTokens E (withMaxPromptTokens options large) prefix)%Q.
Proof.
  intros Hs Hle. unfold maxSuffixTokens. simpl.
  apply Q.min_le_compat.
  - unfold Qminus. apply Qplus_le_compat; [assumption|apply Qle_refl].
  - rewrite !(Qmult_comm (maxSuffixPercentage options)).
    now apply Qmult_le_compat_r.
Qed.

Lemma gatherSnippets_ignores_budget (E : Collaborators)
    (filepath fullPrefix fullSuffix : jsstring)
    (getDefinition : jsstring -> Z -> Z -> option FileWithContents)
    (options : TabAutocompleteOptions) (budget : Q)
    (ranges : list RangeInFileWithContents)
    (documents : list FileWithContents) :
  gatherSnippets E filepath fullPrefix fullSuffix getDefinition
    (withMaxPromptTokens options budget) ranges documents
  = gatherSnippets E filepath fullPrefix fullSuffix getDefinition options
      ranges documents.
Proof. reflexivity. Qed.

Section Budget.

Variable E : Collaborators.
Variables filepath fullPrefix fullSuffix clipboardText : jsstring.
Variable language : AutocompleteLanguageInfo.
Variable getDefinition : jsstring -> Z -> Z -> option FileWithContents.
Variable options : TabAutocompleteOptions.
Variable ranges : list RangeInFileWithContents.
Variable documents : list FileWithContents.

(** C9, as the code has it: with the pruners of the specification and a
    prefix share that is not negative, a larger total budget leaves the
    snippets and the multiline decision as they are and removes no more
    lines from the top of the original prefix; when in addition the two
    returned prefixes are the same and the suffix share is not negative, it
    removes no more lines from the bottom of the suffix. *)
Theorem larger_budget_prunes_no_more (small large : Q)
    (atSmall atLarge : AssembledPrompt) :
  usesSpecPruners E ->
  (0 <= prefixPercentage options)%Q ->
  (small <= large)%Q ->
  constructAutocompletePrompt E filepath fullPrefix fullSuffix clipboardText
    language getDefinition (withMaxPromptTokens options small) ranges
    documents = Returned atSmall ->
  constructAutocompletePrompt E filepath fullPrefix fullSuffix clipboardText
    language getDefinition (withMaxPromptTokens options large) ranges
    documents = Returned atLarge ->
  completeMultiline atLarge = completeMultiline atSmall
  /\ (exists formatted removedSmall removedLarge,
        removedLarge <= removedSmall
        /\ prefix atSmall
           = prependSnippets formatted
               (join nl (skipn removedSmall (split LF fullPrefix)))
        /\ prefix atLarge
           = prependSnippets formatted
               (join nl (skipn removedLarge (split LF fullPrefix))))
  /\ ((0 <= maxSuffixPercentage options)%Q ->
      prefix atLarge = prefix atSmall ->
      exists keptSmall keptLarge,
        keptSmall <= keptLarge
        /\ suffix atSmall = join nl (firstn keptSmall (split LF fullSuffix))
        /\ suffix atLarge = join nl (firstn keptLarge (split LF fullSuffix))).
Proof.
  intros (Htop & Hbottom) Hp Hle.
  rewrite !constructAutocompletePrompt_stages.
  rewrite !gatherSnippets_ignores_budget.
  change (windowAroundCursor (withMaxPromptTokens options small))
    with (windowAroundCursor options).
  change (windowAroundCursor (withMaxPromptTokens options large))
    with (windowAroundCursor options).
  intros Hsmall Hlarge.
  destruct (assemble_returned _ _ _ _ _ _ _ _ _ Hsmall)
    as (ranked & Hranked & Hps & Hss & _ & Hds).
  destruct (assemble_returned _ _ _ _ _ _ _ _ _ Hlarge)
    as (ranked' & Hranked' & Hpl & Hsl & _ & Hdl).
  rewrite Hranked in Hranked'.
  apply map_Some_injective in Hranked'. subst ranked'.
  split; [congruence|]. split.
  - exists (join nl (map (formatSnippet E language) ranked)).
    unfold buildPrefix in Hps, Hpl. rewrite Htop in Hps, Hpl.
    unfold specPruneLinesFromTop in Hps, Hpl.
    set (lines := split LF fullPrefix) in *.
    set (formatted := join nl (map (formatSnippet E language) ranked)) in *.
    pose proof (maxPrefixTokens_monotone E options small large formatted
                  Hp Hle) as Hbudget.
    destruct (dropLinesFromTop_monotone (countTokens E) _ _ lines Hbudget)
      as (j & Hj).
    destruct (dropLinesFromTop_skipn (countTokens E)
                (maxPrefixTokens E (withMaxPromptTokens options large)
                   formatted) lines) as (k & _ & Hk).
    rewrite Hk in Hj. rewrite skipn_skipn in Hj.
    exists (j + k), k. rewrite Hps, Hpl, Hj, Hk.
    split; [lia|]. split; reflexivity.
  - intros Hs Hsame. rewrite Hsame in Hsl.
    rewrite Hbottom in Hss, Hsl.
    unfold specPruneLinesFromBottom in Hss, Hsl.
    set (rlines := rev (split LF fullSuffix)) in *.
    pose proof (maxSuffixTokens_monotone E options small large
                  (prefix atSmall) Hs Hle) as Hbudget.
    destruct (dropLinesFromBottom_monotone (countTokens E) _ _ rlines Hbudget)
      as (j & Hj).
    destruct (dropLinesFromBottom_skipn (countTokens E)
                (maxSuffixTokens E (withMaxPromptTokens options large)
                   (prefix atSmall)) rlines) as (k & _ & Hk).
    rewrite Hk in Hj. rewrite skipn_skipn in Hj.
    exists (length (split LF fullSuffix) - (j + k)),
           (length (split LF fullSuffix) - k).
    rewrite Hss, Hsl, Hj, Hk. unfold rlines.
    rewrite !rev_skipn_rev. split; [lia|]. split; reflexivity.
Qed.

End Budget.

Lemma larger_budget_prunes_no_more_witness :
  tightRun 5 = Returned tightResultAt5
  /\ tightRun 6 = Returned tightResultAt6
  /\ exists formatted removedSmall removedLarge,
       removedLarge <= removedSmall
       /\ prefix tightResultAt5
          = prependSnippets formatted
              (join nl (skipn removedSmall (split LF (str "abc"))))
       /\ prefix tightResultAt6
          = prependSnippets formatted
              (join nl (skipn removedLarge (split LF (str "abc")))).
Proof.
  assert (H5 : tightRun 5 = Returned tightResultAt5)
    by (vm_compute; reflexivity).
  assert (H6 : tightRun 6 = Returned tightResultAt6)
    by (vm_compute; reflexivity).
  split; [exact H5|]. split; [exact H6|].
  refine (proj1 (proj2 (larger_budget_prunes_no_more
                          (sampleCollaborators None noScope) (str "a.ts")
                          (str "abc") (str "wxyz") [] TypescriptProfile
                          noDefinition (sampleOptions 0) [] [] 5 6
                          tightResultAt5 tightResultAt6 _ _ _ H5 H6))).
  - split; reflexivity.
  - unfold Qle. simpl. lia.
  - unfold Qle. simpl. lia.
Defined.

(** C9, as the claim words it, fails: with half of the budget for the
    prefix and the suffix share at one, a prefix of three tokens and a
    suffix of four, the budget 5 returns the suffix alone, four tokens, and
    the budget 6 returns the prefix alone, three tokens. *)
Lemma total_tokens_decrease_with_budget :
  ~ (forall (E : Collaborators)
            (filepath fullPrefix fullSuffix clipboardText : jsstring)
            (language : AutocompleteLanguageInfo)
            (getDefinition : jsstring -> Z -> Z -> option FileWithContents)
            (options : TabAutocompleteOptions)
            (ranges : list RangeInFileWithContents)
            (documents : list FileWithContents)
            (small large : Q) (atSmall atLarge : AssembledPrompt),
       usesSpecPruners E ->
       (0 <= prefixPercentage options <= 1)%Q ->
       (0 <= maxSuffixPercentage options <= 1)%Q ->
       (0 <= small <= large)%Q ->
       constructAutocompletePrompt E filepath fullPrefix fullSuffix
         clipboardText language getDefinition
         (withMaxPromptTokens options small) ranges documents
       = Returned atSmall ->
       constructAutocompletePrompt E filepath fullPrefix fullSuffix
         clipboardText language getDefinition
         (withMaxPromptTokens options large) ranges documents
       = Returned atLarge ->
       (countTokens E (prefix atSmall) + countTokens E (suffix atSmall)
        <= countTokens E (prefix atLarge) + countTokens E (suffix atLarge))%N).
Proof.
  intros H.
  assert (H5 : tightRun 5 = Returned tightResultAt5)
    by (vm_compute; reflexivity).
  assert (H6 : tightRun 6 = Returned tightResultAt6)
    by (vm_compute; reflexivity).
  specialize (H (sampleCollaborators None noScope) (str "a.ts") (str "abc")
                (str "wxyz") [] TypescriptProfile noDefinition
                (sampleOptions 0) [] [] 5%Q 6%Q tightResultAt5 tightResultAt6).
  assert (Hsum : (countTokens (sampleCollaborators None noScope)
                    (prefix tightResultAt5)
                  + countTokens (sampleCollaborators None noScope)
                      (suffix tightResultAt5)
                  <= countTokens (sampleCollaborators None noScope)
                       (prefix tightResultAt6)
                     + countTokens (sampleCollaborators None noScope)
                         (suffix tightResultAt6))%N).
  { apply H; try assumption.
    - split; reflexivity.
    - split; unfold Qle; simpl; lia.
    - split; unfold Qle; simpl; lia.
    - split; unfold Qle; simpl; lia. }
  vm_compute in Hsum. apply Hsum. reflexivity.
Qed.

(** * Further properties of the code *)

(** ** Lines *)

Lemma streq_eq (a b : jsstring) : streq a b = true <-> a = b.
Proof.
  revert b. induction a as [|x a IH]; intros [|y b]; simpl;
    try (split; [discriminate|discriminate]); [tauto|].
  rewrite andb_true_iff, N.eqb_eq, IH. split.
  - now intros (-> & ->).
  - intros H. now injection H.
Qed.

Lemma split_lines_without_sep (sep : N) (s : jsstring) :
  Forall (fun l => ~ In sep l) (split sep s).
Proof.
  induction s as [|c s IH]; simpl.
  - constructor; [tauto|constructor].
  - destruct (N.eqb_spec c sep) as [->|Hne].
    + constructor; [tauto|exact IH].
    + destruct (split sep s) as [|l ls]; inversion IH; subst.
      * constructor; [|constructor]. simpl. intuition congruence.
      * constructor; [|assumption]. simpl. intuition congruence.
Qed.

(** Splitting what was joined gives the lines back, provided there is a
    line and no line holds the separator. *)
Lemma split_join (sep : N) (lines : list jsstring) :
  lines <> [] -> Forall (fun l => ~ In sep l) lines ->
  split sep (join [sep] lines) = lines.
Proof.
  induction lines as [|l lines IH]; [congruence|]. intros _ Hall.
  inversion Hall as [|? ? Hl Hrest]; subst.
  destruct lines as [|l' lines].
  - simpl. now apply split_without_sep.
  - rewrite join_cons.
    change (l ++ [sep] ++ join [sep] (l' :: lines))
      with (l ++ sep :: join [sep] (l' :: lines)).
    rewrite split_app_sep, (split_without_sep _ _ Hl).
    rewrite IH by (assumption || discriminate).
    reflexivity.
Qed.

Lemma length_split (sep : N) (s : jsstring) :
  length (split sep s) = S (count_occ N.eq_dec s sep).
Proof.
  induction s as [|c s IH]; simpl; [reflexivity|].
  destruct (N.eqb_spec c sep) as [->|Hne].
  - destruct (N.eq_dec sep sep); [|congruence]. simpl. now rewrite IH.
  - destruct (N.eq_dec c sep); [congruence|].
    destruct (split_is_cons sep s) as (l & ls & E). rewrite E in *.
    exact IH.
Qed.

(** ** Snippet formatter *)

Lemma formatExternalSnippet_split (E : Collaborators)
    (filepath snippet : jsstring) (language : AutocompleteLanguageInfo) :
  ~ In LF (comment language) -> ~ In LF (getBasename E filepath) ->
  split LF (formatExternalSnippet E filepath snippet language)
  = (comment language ++ str " Path: " ++ getBasename E filepath)
    :: map (fun l => comment language ++ str " " ++ l) (split LF snippet)
    ++ [comment language].
Proof.
  intros Hc Hb. unfold formatExternalSnippet.
  apply (split_join LF); [discriminate|].
  constructor.
  - rewrite !in_app_iff. intros [H|[H|H]]; try tauto.
    vm_compute in H.
    repeat (destruct H as [H|H]; [discriminate H|]). exact H.
  - apply Forall_app. split; [|constructor; [assumption|constructor]].
    apply Forall_map.
    eapply Forall_impl; [|apply (split_lines_without_sep LF snippet)].
    intros l Hl. cbv beta in Hl.
    rewrite !in_app_iff. intros [H|[H|H]]; try tauto.
    vm_compute in H. destruct H as [H|H]; [discriminate H|exact H].
Qed.

(** X1: when neither the comment token nor the base name holds a line feed,
    a formatted block has two lines more than the snippet, hence three at
    least; its first line is the header, its last line the bare comment
    token, and every line starts with the comment token. *)
Theorem formatExternalSnippet_lines (E : Collaborators)
    (filepath snippet : jsstring) (language : AutocompleteLanguageInfo) :
  ~ In LF (comment language) -> ~ In LF (getBasename E filepath) ->
  let block := split LF (formatExternalSnippet E filepath snippet language) in
  length block = length (split LF snippet) + 2
  /\ 3 <= length block
  /\ hd [] block
     = comment language ++ str " Path: " ++ getBasename E filepath
  /\ last block [] = comment language
  /\ Forall (fun l => firstn (length (comment language)) l = comment language)
            block.
Proof.
  intros Hc Hb block. unfold block.
  rewrite (formatExternalSnippet_split _ _ _ _ Hc Hb).
  assert (Hstart : forall rest,
             firstn (length (comment language)) (comment language ++ rest)
             = comment language).
  { intros rest. rewrite firstn_app, firstn_all, Nat.sub_diag. simpl.
    apply app_nil_r. }
  repeat split.
  - simpl. rewrite length_app, length_map. simpl. lia.
  - simpl. rewrite length_app, length_map. simpl.
    destruct (split_is_cons LF snippet) as (l & ls & ->). simpl. lia.
  - change (?x :: ?m ++ [?c]) with ((x :: m) ++ [c]). apply last_last.
  - constructor; [apply Hstart|].
    apply Forall_app. split.
    + apply Forall_map. apply Forall_forall. intros l _. apply Hstart.
    + constructor; [|constructor].
      rewrite <- (app_nil_r (comment language)) at 2. apply Hstart.
Qed.

Lemma formatExternalSnippet_lines_witness :
  length (split LF (formatExternalSnippet (sampleCollaborators None noScope)
                      (str "src/a.ts") (str "x") TypescriptProfile))
  = length (split LF (str "x")) + 2.
Proof.
  refine (proj1 (formatExternalSnippet_lines
                   (sampleCollaborators None noScope) (str "src/a.ts")
                   (str "x") TypescriptProfile _ _)).
  - vm_compute. intuition discriminate.
  - vm_compute. intuition discriminate.
Defined.

(** X2: under the same condition the snippet is read back from its block:
    drop the header and the closing line, drop the comment token and the
    space from each line left, and join. *)
Theorem formatExternalSnippet_read_back (E : Collaborators)
    (filepath snippet : jsstring) (language : AutocompleteLanguageInfo) :
  ~ In LF (comment language) -> ~ In LF (getBasename E filepath) ->
  join nl
    (map (skipn (length (comment language) + 1))
       (removelast
          (tl (split LF
                 (formatExternalSnippet E filepath snippet language)))))
  = snippet.
Proof.
  intros Hc Hb. rewrite (formatExternalSnippet_split _ _ _ _ Hc Hb).
  simpl tl. rewrite removelast_last, map_map.
  rewrite <- (join_split LF snippet) at 2. f_equal.
  rewrite <- (map_id (split LF snippet)) at 2.
  apply map_ext. intros l.
  rewrite skipn_app, skipn_all2 by lia.
  replace (length (comment language) + 1 - length (comment language))
    with 1 by lia.
  reflexivity.
Qed.

Lemma formatExternalSnippet_read_back_witness :
  join nl
    (map (skipn (length (comment PythonProfile) + 1))
       (removelast
          (tl (split LF
                 (formatExternalSnippet (sampleCollaborators None noScope)
                    (str "lib/b.py") (str "def f():" ++ nl ++ str "  pass")
                    PythonProfile)))))
  = str "def f():" ++ nl ++ str "  pass".
Proof.
  apply formatExternalSnippet_read_back.
  - vm_compute. intuition discriminate.
  - vm_compute. intuition discriminate.
Defined.

(** ** Searching a path *)

Lemma find_first_match (A : Type) (p : A -> bool) (a b : list A) (c : A) :
  (forall x, In x a -> p x = false) -> p c = true ->
  find p (a ++ c :: b) = Some c.
Proof.
  intros Ha Hc. induction a as [|x a IH]; simpl.
  - now rewrite Hc.
  - rewrite (Ha x) by now left. apply IH. intros y Hy. apply Ha. now right.
Qed.

Lemma find_no_match (A : Type) (p : A -> bool) (l : list A) :
  (forall x, In x l -> p x = false) -> find p l = None.
Proof.
  intros H. induction l as [|x l IH]; simpl; [reflexivity|].
  rewrite (H x) by now left. apply IH. intros y Hy. apply H. now right.
Qed.

(** Read forwards or backwards, a list shows the same first match when all
    its matches are equal. *)
Lemma find_rev_same (A : Type) (p : A -> bool) (l : list A) :
  (forall x y, In x l -> In y l -> p x = true -> p y = true -> x = y) ->
  find p (rev l) = find p l.
Proof.
  intros Hsame.
  destruct (find p l) as [x|] eqn:Hx.
  - destruct (find_some _ _ Hx) as (Hin & Hpx).
    destruct (find p (rev l)) as [y|] eqn:Hy.
    + destruct (find_some _ _ Hy) as (Hiny & Hpy).
      apply in_rev in Hiny. f_equal. now apply Hsame.
    + pose proof (find_none _ _ Hy x) as Hnone.
      rewrite <- in_rev in Hnone. rewrite (Hnone Hin) in Hpx. discriminate.
  - apply find_no_match. intros y Hy. apply in_rev in Hy.
    exact (find_none _ _ Hx y Hy).
Qed.

Lemma formatAll_none_iff (E : Collaborators)
    (language : AutocompleteLanguageInfo)
    (snippets : list (option FileWithContents)) :
  formatAll E language snippets = None <-> In None snippets.
Proof.
  induction snippets as [|[s|] snippets IH]; simpl.
  - split; [discriminate|tauto].
  - destruct (formatAll E language snippets).
    + split; [discriminate|]. intros [H|H]; [discriminate|].
      apply IH in H. discriminate.
    + split; [|reflexivity]. intros _. right. now apply IH.
  - split; [now left|reflexivity].
Qed.

Section Gathering.

Variable E : Collaborators.
Variables filepath fullPrefix fullSuffix clipboardText : jsstring.
Variable language : AutocompleteLanguageInfo.
Variable getDefinition : jsstring -> Z -> Z -> option FileWithContents.
Variable options : TabAutocompleteOptions.
Variable ranges : list RangeInFileWithContents.
Variable documents : list FileWithContents.

Lemma returned_decision (result : AssembledPrompt) :
  constructAutocompletePrompt E filepath fullPrefix fullSuffix clipboardText
    language getDefinition options ranges documents = Returned result ->
  completeMultiline result
  = snd (gatherSnippets E filepath fullPrefix fullSuffix getDefinition options
           ranges documents).
Proof.
  rewrite constructAutocompletePrompt_stages. intros H.
  now destruct (assemble_returned _ _ _ _ _ _ _ _ _ H) as (? & _ & _ & _ & _ & ?).
Qed.

(** X3: when no tree is obtained, or the path lookup fails, the candidates
    are the matcher's snippets followed by the entries of the recently
    edited ranges, the definition lookup takes no part in the outcome, and
    a returned prompt asks for a single line. *)
Theorem parse_failure_skips_lookup_and_multiline :
  getAst E filepath (fullPrefix ++ fullSuffix) = None
  \/ (exists ast,
        getAst E filepath (fullPrefix ++ fullSuffix) = Some ast
        /\ getTreePathAtCursor E ast (length fullPrefix) = None) ->
  fst (gatherSnippets E filepath fullPrefix fullSuffix getDefinition options
         ranges documents)
  = map Some (slidingWindowMatcher E documents
                (windowAroundCursor options fullPrefix fullSuffix) 3
                (slidingWindowSize options))
    ++ recentlyEdited E ranges
  /\ (forall otherLookup,
        constructAutocompletePrompt E filepath fullPrefix fullSuffix
          clipboardText language otherLookup options ranges documents
        = constructAutocompletePrompt E filepath fullPrefix fullSuffix
            clipboardText language getDefinition options ranges documents)
  /\ (forall result,
        constructAutocompletePrompt E filepath fullPrefix fullSuffix
          clipboardText language getDefinition options ranges documents
        = Returned result ->
        completeMultiline result = false).
Proof.
  intros Hfail.
  assert (Hpath : parseTreePath E filepath fullPrefix fullSuffix = None).
  { unfold parseTreePath. destruct Hfail as [->|(ast & -> & ->)]; reflexivity. }
  assert (Hgather : forall lookup,
             gatherSnippets E filepath fullPrefix fullSuffix lookup options
               ranges documents
             = (map Some (slidingWindowMatcher E documents
                            (windowAroundCursor options fullPrefix fullSuffix)
                            3 (slidingWindowSize options))
                ++ recentlyEdited E ranges, false)).
  { intros lookup. unfold gatherSnippets. now rewrite Hpath. }
  split; [now rewrite Hgather|]. split.
  - intros otherLookup. unfold constructAutocompletePrompt.
    now rewrite !Hgather.
  - intros result H. rewrite (returned_decision _ H). now rewrite Hgather.
Qed.

(** X4: on a parsed path of zero, two or more nodes a returned prompt asks
    for several lines exactly when the first qualifying block of the path
    read root to leaf, the outermost one, has an inner text of one line; the
    cursor line used is the number of line feeds of the prefix. *)
Theorem returned_decision_by_outermost_block
    (treePath : list SyntaxNode) (result : AssembledPrompt) :
  parseTreePath E filepath fullPrefix fullSuffix = Some treePath ->
  length treePath <> 1 ->
  constructAutocompletePrompt E filepath fullPrefix fullSuffix clipboardText
    language getDefinition options ranges documents = Returned result ->
  completeMultiline result
  = match find (fun node =>
                  qualifies node
                    (Z.of_nat (count_occ N.eq_dec fullPrefix LF)))
               treePath with
    | Some node => spansOneLine (innerText (text node))
    | None => false
    end.
Proof.
  intros Hpath Hlen H.
  rewrite (returned_decision _ H), (gatherSnippets_decision _ _ _ _ _ _ _ _ _ Hpath).
  rewrite length_split.
  replace (Z.of_nat (S (count_occ N.eq_dec fullPrefix LF)) - 1)%Z
    with (Z.of_nat (count_occ N.eq_dec fullPrefix LF)) by lia.
  unfold shouldCompleteMultiline. rewrite length_rev.
  destruct (Nat.eqb_spec (length treePath) 1) as [Hone|_]; [contradiction|].
  rewrite <- (length_rev treePath), scanFrom_innermostBlock.
  unfold innermostBlock. now rewrite rev_involutive.
Qed.

(** X5: when all the qualifying nodes of the parsed path are the same node,
    in particular when one node qualifies at most, a returned prompt carries
    the answer of the heuristic on the path as the parser gave it. *)
Theorem returned_decision_with_one_block
    (treePath : list SyntaxNode) (result : AssembledPrompt) :
  let cursorLine := (Z.of_nat (length (split LF fullPrefix)) - 1)%Z in
  parseTreePath E filepath fullPrefix fullSuffix = Some treePath ->
  (forall n1 n2, In n1 treePath -> In n2 treePath ->
     qualifies n1 cursorLine = true -> qualifies n2 cursorLine = true ->
     n1 = n2) ->
  constructAutocompletePrompt E filepath fullPrefix fullSuffix clipboardText
    language getDefinition options ranges documents = Returned result ->
  completeMultiline result = shouldCompleteMultiline treePath cursorLine.
Proof.
  intros cursorLine Hpath Hsame H.
  rewrite (returned_decision _ H), (gatherSnippets_decision _ _ _ _ _ _ _ _ _ Hpath).
  fold cursorLine. unfold shouldCompleteMultiline. rewrite length_rev.
  destruct (Nat.eqb (length treePath) 1); [reflexivity|].
  rewrite <- (length_rev treePath) at 1.
  rewrite !scanFrom_innermostBlock. unfold innermostBlock.
  rewrite rev_involutive. now rewrite (find_rev_same _ _ _ Hsame).
Qed.

(** X6: when the parsed path holds a call expression, the definition is
    looked up at the start of the call closest to the cursor, and what is
    found is the last candidate, after the matcher's snippets and the
    entries of the recently edited ranges. *)
Theorem definition_of_innermost_call_is_last_candidate
    (outer inner : list SyntaxNode) (call : SyntaxNode) :
  parseTreePath E filepath fullPrefix fullSuffix
  = Some (outer ++ call :: inner) ->
  type call = str "call_expression" ->
  (forall node, In node inner -> type node <> str "call_expression") ->
  fst (gatherSnippets E filepath fullPrefix fullSuffix getDefinition options
         ranges documents)
  = map Some (slidingWindowMatcher E documents
                (windowAroundCursor options fullPrefix fullSuffix) 3
                (slidingWindowSize options))
    ++ recentlyEdited E ranges
    ++ match getDefinition filepath (row (startPosition call))
               (column (startPosition call)) with
       | Some definition => [Some definition]
       | None => []
       end.
Proof.
  intros Hpath Hcall Hinner. unfold gatherSnippets. rewrite Hpath.
  unfold Array_reverse, findCallExpression.
  rewrite rev_app_distr. simpl rev. rewrite <- app_assoc. simpl app.
  rewrite find_first_match.
  - simpl. destruct (getDefinition _ _ _); simpl.
    + now rewrite <- app_assoc.
    + now rewrite app_nil_r.
  - intros node Hnode. apply in_rev in Hnode.
    destruct (streq (type node) (str "call_expression")) eqn:Hs;
      [|reflexivity].
    apply streq_eq in Hs. now apply Hinner in Hs.
  - now apply streq_eq.
Qed.

(** X7: when the parsed path holds no call expression, the definition
    lookup takes no part: the candidates are the matcher's snippets and the
    entries of the recently edited ranges, and the outcome is the same with
    any other lookup. *)
Theorem no_call_expression_no_lookup (treePath : list SyntaxNode) :
  parseTreePath E filepath fullPrefix fullSuffix = Some treePath ->
  (forall node, In node treePath -> type node <> str "call_expression") ->
  fst (gatherSnippets E filepath fullPrefix fullSuffix getDefinition options
         ranges documents)
  = map Some (slidingWindowMatcher E documents
                (windowAroundCursor options fullPrefix fullSuffix) 3
                (slidingWindowSize options))
    ++ recentlyEdited E ranges
  /\ (forall otherLookup,
        constructAutocompletePrompt E filepath fullPrefix fullSuffix
          clipboardText language otherLookup options ranges documents
        = constructAutocompletePrompt E filepath fullPrefix fullSuffix
            clipboardText language getDefinition options ranges documents).
Proof.
  intros Hpath Hnone.
  assert (Hfind : findCallExpression (rev treePath) = None).
  { apply find_no_match. intros node Hnode. apply in_rev in Hnode.
    destruct (streq (type node) (str "call_expression")) eqn:Hs;
      [|reflexivity].
    apply streq_eq in Hs. now apply Hnone in Hs. }
  assert (Hgather : forall lookup,
             gatherSnippets E filepath fullPrefix fullSuffix lookup options
               ranges documents
             = (map Some (slidingWindowMatcher E documents
                            (windowAroundCursor options fullPrefix fullSuffix)
                            3 (slidingWindowSize options))
                ++ recentlyEdited E ranges,
                shouldCompleteMultiline (rev treePath)
                  (Z.of_nat (length (split LF fullPrefix)) - 1))).
  { intros lookup. unfold gatherSnippets. rewrite Hpath.
    unfold Array_reverse. now rewrite Hfind. }
  split; [now rewrite Hgather|].
  intros otherLookup. unfold constructAutocompletePrompt. now rewrite !Hgather.
Qed.

(** X8: the assembler throws exactly when the ranker hands back a [null]
    entry; otherwise it returns a prompt. *)
Theorem throws_exactly_on_null_snippet :
  let ranked :=
    rankSnippets E
      (fst (gatherSnippets E filepath fullPrefix fullSuffix getDefinition
              options ranges documents))
      (windowAroundCursor options fullPrefix fullSuffix) in
  (In None ranked <->
   constructAutocompletePrompt E filepath fullPrefix fullSuffix clipboardText
     language getDefinition options ranges documents = ThrownTypeError)
  /\ (~ In None ranked <->
      exists result,
        constructAutocompletePrompt E filepath fullPrefix fullSuffix
          clipboardText language getDefinition options ranges documents
        = Returned result).
Proof.
  intros ranked. rewrite constructAutocompletePrompt_stages.
  unfold assemble. fold ranked.
  rewrite <- (formatAll_none_iff E language ranked).
  destruct (formatAll E language ranked) as [blocks|].
  - split; split; try discriminate; try congruence.
    intros _. eexists. reflexivity.
  - split; split; try reflexivity; try congruence.
    intros (result & Hr). discriminate Hr.
Qed.

End Gathering.

Lemma parse_failure_skips_lookup_and_multiline_witness :
  sampleRun 100 = Returned sampleResult
  /\ completeMultiline sampleResult = false.
Proof.
  assert (Hrun : sampleRun 100 = Returned sampleResult)
    by (vm_compute; reflexivity).
  split; [exact Hrun|].
  refine (proj2 (proj2 (parse_failure_skips_lookup_and_multiline
                          (sampleCollaborators None scopeInA) (str "c.ts")
                          (str "let a = 1" ++ nl ++ str "let b = 2")
                          (nl ++ str "let c") [] TypescriptProfile
                          noDefinition (sampleOptions 100) [sampleRange] []
                          _)) sampleResult Hrun).
  right. exists tt. split; reflexivity.
Defined.

Lemma returned_decision_by_outermost_block_witness :
  constructAutocompletePrompt (sampleCollaborators (Some nestedPath) noScope)
    (str "a.ts") nestedPrefix nestedSuffix [] TypescriptProfile noDefinition
    (sampleOptions 100) [] [] = Returned nestedResult
  /\ completeMultiline nestedResult
     = spansOneLine (innerText (text outerBlockNode)).
Proof.
  assert (Hrun : constructAutocompletePrompt
                   (sampleCollaborators (Some nestedPath) noScope)
                   (str "a.ts") nestedPrefix nestedSuffix [] TypescriptProfile
                   noDefinition (sampleOptions 100) [] []
                 = Returned nestedResult) by (vm_compute; reflexivity).
  split; [exact Hrun|].
  refine (eq_trans
            (returned_decision_by_outermost_block
               (sampleCollaborators (Some nestedPath) noScope) (str "a.ts")
               nestedPrefix nestedSuffix [] TypescriptProfile noDefinition
               (sampleOptions 100) [] [] nestedPath nestedResult _ _ Hrun)
            _).
  - reflexivity.
  - simpl. lia.
  - vm_compute. reflexivity.
Defined.

Lemma returned_decision_with_one_block_witness :
  constructAutocompletePrompt
    (sampleCollaborators (Some singleBlockPath) noScope)
    (str "a.ts") nestedPrefix nestedSuffix [] TypescriptProfile noDefinition
    (sampleOptions 100) [] [] = Returned singleBlockResult
  /\ completeMultiline singleBlockResult
     = shouldCompleteMultiline singleBlockPath 1.
Proof.
  assert (Hrun : constructAutocompletePrompt
                   (sampleCollaborators (Some singleBlockPath) noScope)
                   (str "a.ts") nestedPrefix nestedSuffix [] TypescriptProfile
                   noDefinition (sampleOptions 100) [] []
                 = Returned singleBlockResult) by (vm_compute; reflexivity).
  split; [exact Hrun|].
  refine (returned_decision_with_one_block
            (sampleCollaborators (Some singleBlockPath) noScope) (str "a.ts")
            nestedPrefix nestedSuffix [] TypescriptProfile noDefinition
            (sampleOptions 100) [] [] singleBlockPath singleBlockResult
            _ _ Hrun).
  - reflexivity.
  - intros n1 n2 H1 H2 Q1 Q2. simpl in H1, H2.
    destruct H1 as [<-|[<-|[<-|[]]]]; try discriminate Q1;
      destruct H2 as [<-|[<-|[<-|[]]]]; try discriminate Q2; reflexivity.
Defined.

Lemma definition_of_innermost_call_is_last_candidate_witness :
  fst (gatherSnippets (sampleCollaborators (Some callPath) scopeInA)
         (str "c.ts") (str "let a" ++ nl ++ nl ++ str "    g(") []
         sampleDefinition (sampleOptions 100) [sampleRange] [])
  = [Some {| filepath := str "a.ts"; contents := str "x" |};
     Some definitionOfG].
Proof.
  refine (eq_trans
            (definition_of_innermost_call_is_last_candidate
               (sampleCollaborators (Some callPath) scopeInA) (str "c.ts")
               (str "let a" ++ nl ++ nl ++ str "    g(") [] sampleDefinition
               (sampleOptions 100) [sampleRange] []
               [nth 0 callPath callNode] [nth 2 callPath callNode] callNode
               _ _ _)
            _).
  - reflexivity.
  - reflexivity.
  - intros node [<-|[]]. vm_compute. discriminate.
  - vm_compute. reflexivity.
Defined.

Lemma no_call_expression_no_lookup_witness :
  fst (gatherSnippets (sampleCollaborators (Some singleBlockPath) scopeInA)
         (str "a.ts") nestedPrefix nestedSuffix sampleDefinition
         (sampleOptions 100) [sampleRange] [])
  = [Some {| filepath := str "a.ts"; contents := str "x" |}].
Proof.
  refine (eq_trans
            (proj1 (no_call_expression_no_lookup
                      (sampleCollaborators (Some singleBlockPath) scopeInA)
                      (str "a.ts") nestedPrefix nestedSuffix []
                      TypescriptProfile sampleDefinition (sampleOptions 100)
                      [sampleRange] [] singleBlockPath _ _))
            _).
  - reflexivity.
  - intros node H. simpl in H.
    destruct H as [<-|[<-|[<-|[]]]]; vm_compute; discriminate.
  - vm_compute. reflexivity.
Defined.

Lemma throws_exactly_on_null_snippet_witness :
  constructAutocompletePrompt (sampleCollaborators None scopeInA)
    (str "c.ts") (str "abcd") (str "wxyz") [] TypescriptProfile noDefinition
    (sampleOptions 100) [sampleRange; otherRange] [] = ThrownTypeError
  /\ exists result, sampleRun 100 = Returned result.
Proof.
  split.
  - apply (proj1 (throws_exactly_on_null_snippet
                    (sampleCollaborators None scopeInA) (str "c.ts")
                    (str "abcd") (str "wxyz") [] TypescriptProfile
                    noDefinition (sampleOptions 100) [sampleRange; otherRange]
                    [])).
    vm_compute. tauto.
  - apply (proj2 (throws_exactly_on_null_snippet
                    (sampleCollaborators None scopeInA) (str "c.ts")
                    (str "let a = 1" ++ nl ++ str "let b = 2")
                    (nl ++ str "let c") [] TypescriptProfile noDefinition
                    (sampleOptions 100) [sampleRange] [])).
    vm_compute. intros [H|[]]. discriminate H.
Defined.

(** ** Recently edited ranges, again *)

(** X9: every recently edited range yields one entry, at its own place:
    [null] when its scope lookup answers nothing, else a snippet made of
    the file path and the contents of the range itself.  The scope found
    is only tested for presence: two scope lookups that answer nothing on
    the same ranges give the same entries, whatever scopes they find. *)
Theorem recentlyEdited_tests_presence_only (E E' : Collaborators)
    (ranges : list RangeInFileWithContents) :
  (forall r, In r ranges ->
     (getScopeAroundRange E r = None <-> getScopeAroundRange E' r = None)) ->
  recentlyEdited E ranges = recentlyEdited E' ranges
  /\ length (recentlyEdited E ranges) = length ranges
  /\ (forall i r,
        nth_error ranges i = Some r ->
        (getScopeAroundRange E r = None ->
         nth_error (recentlyEdited E ranges) i = Some None)
        /\ (getScopeAroundRange E r <> None ->
            nth_error (recentlyEdited E ranges) i
            = Some (Some {| filepath := range_filepath r;
                            contents := range_contents r |}))).
Proof.
  intros Hsame. rewrite !recentlyEdited_map. split; [|split].
  - apply map_ext_in. intros r Hr. specialize (Hsame r Hr).
    destruct (getScopeAroundRange E r), (getScopeAroundRange E' r);
      try reflexivity.
    + destruct Hsame as (_ & H). discriminate (H eq_refl).
    + destruct Hsame as (H & _). discriminate (H eq_refl).
  - apply length_map.
  - intros i r Hr. rewrite nth_error_map, Hr. simpl.
    destruct (getScopeAroundRange E r); split; intros H;
      try reflexivity; try discriminate H; now contradiction H.
Qed.

Lemma recentlyEdited_tests_presence_only_witness :
  recentlyEdited (sampleCollaborators None scopeInA) [sampleRange; otherRange]
  = recentlyEdited (sampleCollaborators None otherScopeInA)
      [sampleRange; otherRange]
  /\ nth_error (recentlyEdited (sampleCollaborators None otherScopeInA)
                  [sampleRange; otherRange]) 0
     = Some (Some {| filepath := str "a.ts"; contents := str "x" |}).
Proof.
  split.
  - refine (proj1 (recentlyEdited_tests_presence_only
                     (sampleCollaborators None scopeInA)
                     (sampleCollaborators None otherScopeInA)
                     [sampleRange; otherRange] _)).
    intros r H. simpl in H.
    destruct H as [<-|[<-|[]]]; vm_compute; split; intros H; discriminate H
      || reflexivity.
  - refine (proj2 (proj2 (proj2 (recentlyEdited_tests_presence_only
                                   (sampleCollaborators None otherScopeInA)
                                   (sampleCollaborators None scopeInA)
                                   [sampleRange; otherRange] _))
                     0 sampleRange eq_refl) _).
    + intros r H. simpl in H.
      destruct H as [<-|[<-|[]]]; vm_compute; split; intros H; discriminate H
        || reflexivity.
    + vm_compute. discriminate.
Defined.

(** ** The window around the cursor, again *)

Lemma slice_last_chars (A : Type) (s : list A) (k : Z) :
  (0 < k)%Z -> slice s (- k) None = skipn (length s - Z.to_nat k) s.
Proof.
  intros Hk. unfold slice. rewrite clampIndex_neg by lia.
  replace (Z.to_nat (Z.max (Z.of_nat (length s) + - k) 0))
    with (length s - Z.to_nat k) by lia.
  apply firstn_all2. rewrite length_skipn. lia.
Qed.

(** X10: when the first slice argument, minus the window size times the
    prefix share computed in binary64, truncates to [- k] with [k]
    positive, and the second, the window size times one minus the share,
    truncates to [m] not negative, the window is the end of the prefix of
    [k] characters, or the whole prefix when it is shorter, followed by the
    suffix without its first [m] characters. *)
Theorem windowAroundCursor_shape (options : TabAutocompleteOptions)
    (fullPrefix fullSuffix : jsstring) (k m : Z) :
  toIntegerOrInfinity
    (- slidingWindowSize options
     * slidingWindowPrefixPercentage options)%float = Finite (- k) ->
  toIntegerOrInfinity
    (slidingWindowSize options
     * (1 - slidingWindowPrefixPercentage options))%float = Finite m ->
  (0 < k)%Z -> (0 <= m)%Z ->
  windowAroundCursor options fullPrefix fullSuffix
  = skipn (length fullPrefix - Z.to_nat k) fullPrefix
    ++ skipn (Z.to_nat m) fullSuffix
  /\ length (windowAroundCursor options fullPrefix fullSuffix)
     = Nat.min (Z.to_nat k) (length fullPrefix)
       + (length fullSuffix - Z.to_nat m).
Proof.
  intros Hstart Hstop Hk Hm.
  assert (Hw : windowAroundCursor options fullPrefix fullSuffix
               = skipn (length fullPrefix - Z.to_nat k) fullPrefix
                 ++ skipn (Z.to_nat m) fullSuffix).
  { unfold windowAroundCursor, sliceFromNumber. rewrite Hstart, Hstop.
    rewrite (slice_last_chars _ fullPrefix k Hk). f_equal.
    exact (slice_from _ fullSuffix m Hm). }
  split; [exact Hw|].
  rewrite Hw, length_app, !length_skipn. lia.
Qed.

Lemma windowAroundCursor_shape_witness :
  windowAroundCursor wideWindowOptions (repeat 97%N 40) (repeat 98%N 70)
  = repeat 97%N 27 ++ repeat 98%N 8.
Proof.
  refine (eq_trans
            (proj1 (windowAroundCursor_shape wideWindowOptions
                      (repeat 97%N 40) (repeat 98%N 70) 27 62 _ _ _ _))
            _).
  - vm_compute. reflexivity.
  - vm_compute. reflexivity.
  - lia.
  - lia.
  - vm_compute. reflexivity.
Defined.

(** X11: when the first slice argument, minus the window size times the
    prefix share computed in binary64, truncates to zero, the whole prefix
    enters the window, not an empty end of it. *)
Theorem windowAroundCursor_zero_prefix_share
    (options : TabAutocompleteOptions) (fullPrefix fullSuffix : jsstring) :
  toIntegerOrInfinity
    (- slidingWindowSize options
     * slidingWindowPrefixPercentage options)%float = Finite 0 ->
  exists fromSuffix,
    windowAroundCursor options fullPrefix fullSuffix
    = fullPrefix ++ fromSuffix.
Proof.
  intros Hzero. unfold windowAroundCursor, sliceFromNumber at 1.
  rewrite Hzero, slice_from by lia. simpl skipn. eexists. reflexivity.
Qed.

Lemma windowAroundCursor_zero_prefix_share_witness :
  exists fromSuffix,
    windowAroundCursor narrowShareOptions (str "abcdef") (str "uvwxyz")
    = str "abcdef" ++ fromSuffix.
Proof.
  apply windowAroundCursor_zero_prefix_share. vm_compute. reflexivity.
Defined.

(** ** Blank space around the inner text *)

Lemma trimStart_blank (ws rest : jsstring) :
  Forall (fun c => isWhiteSpace c = true) ws ->
  trimStart (ws ++ rest) = trimStart rest.
Proof.
  induction 1 as [|c ws Hc _ IH]; simpl; [reflexivity|]. now rewrite Hc.
Qed.

Lemma trimStart_app (a b : jsstring) :
  trimStart a <> [] -> trimStart (a ++ b) = trimStart a ++ b.
Proof.
  induction a as [|c a IH]; simpl; [congruence|].
  destruct (isWhiteSpace c); [exact IH|reflexivity].
Qed.

Lemma trimStart_nil_blank (a : jsstring) :
  trimStart a = [] -> Forall (fun c => isWhiteSpace c = true) a.
Proof.
  induction a as [|c a IH]; simpl; [constructor|].
  destruct (isWhiteSpace c) eqn:Hc; [|discriminate].
  intros H. constructor; [exact Hc|now apply IH].
Qed.

Lemma trimEnd_blank (rest ws : jsstring) :
  Forall (fun c => isWhiteSpace c = true) ws ->
  trimEnd (rest ++ ws) = trimEnd rest.
Proof.
  intros H. unfold trimEnd. rewrite rev_app_distr.
  now rewrite trimStart_blank by now apply Forall_rev.
Qed.

Lemma trim_surrounded (ws1 core ws2 : jsstring) :
  Forall (fun c => isWhiteSpace c = true) ws1 ->
  Forall (fun c => isWhiteSpace c = true) ws2 ->
  trim (ws1 ++ core ++ ws2) = trim core.
Proof.
  intros H1 H2. unfold trim. rewrite trimStart_blank by assumption.
  destruct (trimStart core) as [|c rest] eqn:Hcore.
  - rewrite trimStart_blank by now apply trimStart_nil_blank.
    rewrite <- (app_nil_r ws2), trimStart_blank by assumption. reflexivity.
  - rewrite trimStart_app by congruence. rewrite Hcore.
    now apply trimEnd_blank.
Qed.

Lemma trimStart_incl (x : N) (s : jsstring) :
  In x (trimStart s) -> In x s.
Proof.
  induction s as [|c s IH]; simpl; [tauto|].
  destruct (isWhiteSpace c); [|exact (fun H => H)].
  intros H. right. now apply IH.
Qed.

Lemma trim_incl (x : N) (s : jsstring) : In x (trim s) -> In x s.
Proof.
  unfold trim, trimEnd. intros H. apply in_rev in H.
  apply trimStart_incl in H. apply in_rev in H. now apply trimStart_incl.
Qed.

Lemma shouldCompleteMultiline_by_block (treePath : list SyntaxNode)
    (cursorLine : Z) (node : SyntaxNode) :
  1 < length treePath ->
  innermostBlock treePath cursorLine = Some node ->
  shouldCompleteMultiline treePath cursorLine
  = spansOneLine (innerText (text node)).
Proof.
  intros Hlen Hnode. unfold shouldCompleteMultiline.
  destruct (Nat.eqb_spec (length treePath) 1) as [Hone|_]; [lia|].
  now rewrite scanFrom_innermostBlock, Hnode.
Qed.

(** X12: the heuristic answers true on a block whose braces enclose one
    line of text with any blank space, line feeds included, before and
    after it: a body that is blank, and also a body that holds a single
    line already. *)
Theorem one_line_body_completes_multiline (treePath : list SyntaxNode)
    (cursorLine : Z) (node : SyntaxNode) (a ws1 core ws2 c : jsstring) :
  1 < length treePath ->
  innermostBlock treePath cursorLine = Some node ->
  text node = a ++ LBRACE :: (ws1 ++ core ++ ws2) ++ RBRACE :: c ->
  ~ In LBRACE a -> ~ In RBRACE c ->
  Forall (fun ch => isWhiteSpace ch = true) ws1 ->
  Forall (fun ch => isWhiteSpace ch = true) ws2 ->
  ~ In LF core ->
  innerText (text node) = trim core
  /\ shouldCompleteMultiline treePath cursorLine = true.
Proof.
  intros Hlen Hnode Htext Ha Hc H1 H2 Hcore.
  assert (Hinner : innerText (text node) = trim core).
  { rewrite Htext, innerText_between by assumption.
    now apply trim_surrounded. }
  split; [exact Hinner|].
  rewrite (shouldCompleteMultiline_by_block _ _ _ Hlen Hnode), Hinner.
  apply spansOneLine_iff. intros H. apply Hcore. now apply trim_incl in H.
Qed.

Lemma one_line_body_completes_multiline_witness :
  shouldCompleteMultiline [outerBlockNode; oneStatementBlock] 1 = true.
Proof.
  refine (proj2 (one_line_body_completes_multiline
                   [outerBlockNode; oneStatementBlock] 1 oneStatementBlock
                   [] (nl ++ str "  ") (str "return 1;") nl [] _ _ _ _ _ _ _ _)).
  - simpl. lia.
  - reflexivity.
  - reflexivity.
  - simpl. tauto.
  - simpl. tauto.
  - repeat constructor.
  - repeat constructor.
  - vm_compute. intros H.
    repeat (destruct H as [H|H]; [discriminate H|]). exact H.
Defined.

(** X13: on a block whose text holds no closing brace after its first
    opening brace, the inner text is what follows that brace without its
    last character, then trimmed, and the heuristic answers by it. *)
Theorem unclosed_block_loses_last_character (treePath : list SyntaxNode)
    (cursorLine : Z) (node : SyntaxNode) (a rest : jsstring) :
  1 < length treePath ->
  innermostBlock treePath cursorLine = Some node ->
  text node = a ++ LBRACE :: rest ->
  ~ In LBRACE a -> ~ In RBRACE rest ->
  innerText (text node) = trim (removelast rest)
  /\ shouldCompleteMultiline treePath cursorLine
     = spansOneLine (trim (removelast rest)).
Proof.
  intros Hlen Hnode Htext Ha Hrest.
  assert (Hinner : innerText (text node) = trim (removelast rest)).
  { rewrite Htext. unfold innerText.
    rewrite stripToOpeningBrace_after by assumption.
    now rewrite stripFromClosingBrace_absent. }
  split; [exact Hinner|].
  now rewrite (shouldCompleteMultiline_by_block _ _ _ Hlen Hnode), Hinner.
Qed.

Lemma unclosed_block_loses_last_character_witness :
  innerText (text openBlock) = str "a".
Proof.
  refine (eq_trans
            (proj1 (unclosed_block_loses_last_character
                      [outerBlockNode; openBlock] 0 openBlock [] (str " ab")
                      _ _ _ _ _))
            _).
  - simpl. lia.
  - reflexivity.
  - reflexivity.
  - simpl. tauto.
  - vm_compute. intros H.
    repeat (destruct H as [H|H]; [discriminate H|]). exact H.
  - vm_compute. reflexivity.
Defined.

(** ** Language profile resolver, again *)

Lemma last_in (A : Type) (l : list A) (d : A) : l <> [] -> In (last l d) l.
Proof.
  induction l as [|x l IH]; [congruence|]. intros _.
  destruct l as [|y l]; [now left|].
  right. apply IH. discriminate.
Qed.

Lemma lookup_key_without_dot (filepath : jsstring) :
  ~ In DOT (last (split DOT filepath) []).
Proof.
  pose proof (split_lines_without_sep DOT filepath) as Hall.
  rewrite Forall_forall in Hall. apply Hall.
  apply last_in. apply split_not_nil.
Qed.

(** X14: the key the resolver looks up never holds a dot, so the entries of
    the table under keys with a dot play no part: two tables that agree on
    the keys without a dot resolve every path alike. *)
Theorem languageForFilepath_ignores_dotted_keys
    (LANGUAGES LANGUAGES' : jsstring -> option AutocompleteLanguageInfo)
    (Typescript : AutocompleteLanguageInfo) (filepath : jsstring) :
  (forall key, ~ In DOT key -> LANGUAGES key = LANGUAGES' key) ->
  languageForFilepath LANGUAGES Typescript filepath
  = languageForFilepath LANGUAGES' Typescript filepath.
Proof.
  intros Hagree. rewrite !languageForFilepath_key. unfold propertyRead.
  now rewrite (Hagree _ (lookup_key_without_dot filepath)).
Qed.

Lemma languageForFilepath_ignores_dotted_keys_witness :
  languageForFilepath sampleLanguages TypescriptProfile (str "a.d.ts")
  = languageForFilepath
      (fun key => if streq key (str "d.ts") then Some PythonProfile
                  else sampleLanguages key)
      TypescriptProfile (str "a.d.ts").
Proof.
  apply languageForFilepath_ignores_dotted_keys.
  intros key Hkey.
  destruct (streq key (str "d.ts")) eqn:Hs; [|reflexivity].
  apply streq_eq in Hs. subst key. exfalso. apply Hkey.
  vm_compute. tauto.
Defined.
